(** * mika-bot admin front-end: session gate, credential client and chat console

    A shallow embedding of the client logic of
    [web/frontend/src/services/api.js], the auth context provider, the route
    guards of the application shell, [pages/Login.jsx], [pages/Chat.jsx],
    the polling of [pages/Dashboard.jsx] and the loading and saving of
    [pages/ConfigIM.jsx] and [pages/ConfigLLM.jsx], followed by the
    properties established about them. *)

From Stdlib Require Import ZArith Lia Bool Ascii String.
From stdpp Require Import base list strings.

Set Warnings "-register-all".
Local Open Scope string_scope.
Local Open Scope Z_scope.

(** ** JavaScript values as produced by [JSON.parse] and property reads *)

Module Js.

(** A number is kept as the text [Number.prototype.toString] gives for it:
    that text is all the modelled code observes of a number (its rendering,
    and whether it is zero; JSON has no NaN). *)
Inductive value : Type :=
| VUndefined
| VNull
| VBool (b : bool)
| VNum (repr : string)
| VStr (s : string)
| VArr (items : list value)
| VObj (fields : list (string * value)).

Inductive exn : Type :=
| ApiError (message : string) (status : Z)
| TypeError (message : string)
| SyntaxError (message : string)
| DOMException (name : string) (message : string).

Definition message (e : exn) : string :=
  match e with
  | ApiError m _ => m
  | TypeError m => m
  | SyntaxError m => m
  | DOMException _ m => m
  end.

(** Outcome of a call: a returned value or a thrown exception. *)
Inductive result (A : Type) : Type :=
| Ok (a : A)
| Throw (e : exn).
Arguments Ok {A} a.
Arguments Throw {A} e.

Definition bind {A B : Type} (r : result A) (k : A -> result B) : result B :=
  match r with
  | Ok a => k a
  | Throw e => Throw e
  end.

Notation "x <- r ;; k" := (bind r (fun x => k))
  (at level 100, r at next level, right associativity).

(** ToBoolean. *)
Definition truthy (v : value) : bool :=
  match v with
  | VUndefined | VNull => false
  | VBool b => b
  | VNum repr => negb (String.eqb repr "0")
  | VStr s => negb (String.eqb s "")
  | VArr _ | VObj _ => true
  end.

(** [a || b]. *)
Definition or_else (a b : value) : value := if truthy a then a else b.

(** An object literal of a JSON text keeps, for a repeated key, the last
    binding. *)
Fixpoint lookup_field (k : string) (fs : list (string * value)) : option value :=
  match fs with
  | [] => None
  | (k', v) :: rest =>
      match lookup_field k rest with
      | Some w => Some w
      | None => if String.eqb k k' then Some v else None
      end
  end.

Definition null_read (k : string) : string :=
  "Cannot read properties of null (reading '" ++ k ++ "')".

Definition undefined_read (k : string) : string :=
  "Cannot read properties of undefined (reading '" ++ k ++ "')".

(** [v.k] for the property names the modelled code reads ([error],
    [authenticated], [setup_needed], [content], [sender]); none of them is a
    built-in property of a string, number, boolean or array. *)
Definition get (v : value) (k : string) : result value :=
  match v with
  | VUndefined => Throw (TypeError (undefined_read k))
  | VNull => Throw (TypeError (null_read k))
  | VObj fs => Ok (default VUndefined (lookup_field k fs))
  | _ => Ok VUndefined
  end.

Definition has_field (k : string) (fs : list (string * value)) : bool :=
  bool_decide (is_Some (lookup_field k fs)).

Definition not_primitive : string := "Cannot convert object to primitive value".

(** ToString. An array is joined with commas, [null] entries rendering as
    the empty string; a plain object renders as [[object Object]] unless an
    own (non-callable) [toString] field shadows the inherited method. *)
Fixpoint to_string (v : value) : result string :=
  match v with
  | VUndefined => Ok "undefined"
  | VNull => Ok "null"
  | VBool true => Ok "true"
  | VBool false => Ok "false"
  | VNum repr => Ok repr
  | VStr s => Ok s
  | VArr items =>
      (fix join (l : list value) : result string :=
         match l with
         | [] => Ok ""
         | x :: rest =>
             let item :=
               match x with
               | VUndefined | VNull => Ok ""
               | _ => to_string x
               end in
             match rest with
             | [] => item
             | _ :: _ => s1 <- item ;; s2 <- join rest ;; Ok (s1 ++ "," ++ s2)
             end
         end) items
  | VObj fs =>
      if has_field "toString" fs then Throw (TypeError not_primitive)
      else Ok "[object Object]"
  end.

End Js.
Import Js.

(** ** Credential client: [services/api.js] *)

Module Api.

Definition API_BASE : string := "/api".

(** The fields of the [fetch] options the wrapper sets; [body] is the value
    handed to [JSON.stringify]. *)
Record options : Type := { method : string; body : option value }.

(** What [fetch] followed by [response.json()] can yield: a rejected fetch
    (a [TypeError]), or a response with its status and the outcome of
    decoding its body. *)
Inductive fetched : Type :=
| NetworkError (message : string)
| Response (status : Z) (json : result value).

(** The network, as seen by one action: the outcome of each request. *)
Definition network : Type := string -> options -> fetched.

(** [response.ok]. *)
Definition ok (status : Z) : bool := (200 <=? status) && (status <=? 299).

(** [new ApiError(message, status)]: the [Error] constructor converts the
    message to a string. *)
Definition new_ApiError (msg : value) (status : Z) : result exn :=
  m <- to_string msg ;; Ok (ApiError m status).

Definition request (fetch : network) (endpoint : string) (opts : options)
  : result value :=
  let url := API_BASE ++ endpoint in
  match fetch url opts with
  | NetworkError m => Throw (TypeError m)
  | Response status json =>
      if status =? 401 then Throw (ApiError "Unauthorized" 401)
      else
        data <- json ;;
        if negb (ok status) then
          err <- get data "error" ;;
          e <- new_ApiError (or_else err (VStr "API Error")) status ;;
          Throw e
        else Ok data
  end.

Definition credentials (password : string) : options :=
  {| method := "POST"; body := Some (VObj [("password", VStr password)]) |}.

Definition checkAuth (fetch : network) : result value :=
  request fetch "/check-auth" {| method := "GET"; body := None |}.
Definition login (fetch : network) (password : string) : result value :=
  request fetch "/login" (credentials password).
Definition logout (fetch : network) : result value :=
  request fetch "/logout" {| method := "POST"; body := None |}.
Definition setup (fetch : network) (password : string) : result value :=
  request fetch "/setup" (credentials password).

Definition getSystemStats (fetch : network) : result value :=
  request fetch "/system" {| method := "GET"; body := None |}.
Definition getConfig (fetch : network) : result value :=
  request fetch "/config" {| method := "GET"; body := None |}.
Definition saveConfig (fetch : network) (config : value) : result value :=
  request fetch "/config" {| method := "POST"; body := Some config |}.

End Api.

(** ** Session gate: the auth context provider *)

Module Auth.

(** The only user object ever stored is [{ authenticated: true }]. *)
Record User : Type := { authenticated : bool }.

Record State : Type := {
  user : option User;
  loading : bool;
  setupNeeded : value
}.

Definition initial : State :=
  {| user := None; loading := true; setupNeeded := VBool false |}.

Definition setUser (u : option User) (s : State) : State :=
  {| user := u; loading := loading s; setupNeeded := setupNeeded s |}.
Definition setLoading (b : bool) (s : State) : State :=
  {| user := user s; loading := b; setupNeeded := setupNeeded s |}.
Definition setSetupNeeded (v : value) (s : State) : State :=
  {| user := user s; loading := loading s; setupNeeded := v |}.

(** The [try] block of [checkAuth]: the state reached, and the exception
    that interrupted it, if any. *)
Definition checkAuth_try (fetch : Api.network) (s : State) : State * option exn :=
  match Api.checkAuth fetch with
  | Throw e => (s, Some e)
  | Ok data =>
      match get data "authenticated" with
      | Throw e => (s, Some e)
      | Ok a =>
          let s1 :=
            if truthy a then setUser (Some {| authenticated := true |}) s
            else setUser None s in
          match get data "setup_needed" with
          | Throw e => (s1, Some e)
          | Ok sn => (setSetupNeeded sn s1, None)
          end
      end
  end.

(** [checkAuth]: [try], then [catch] (which logs and clears the user), then
    [finally]. It never throws. *)
Definition checkAuth (fetch : Api.network) (s : State) : State :=
  let (s1, thrown) := checkAuth_try fetch s in
  let s2 := match thrown with Some _ => setUser None s1 | None => s1 end in
  setLoading false s2.

Definition login (fetch : Api.network) (password : string) (s : State)
  : State * result unit :=
  match Api.login fetch password with
  | Throw e => (s, Throw e)
  | Ok _ => (checkAuth fetch s, Ok tt)
  end.

Definition setup (fetch : Api.network) (password : string) (s : State)
  : State * result unit :=
  match Api.setup fetch password with
  | Throw e => (s, Throw e)
  | Ok _ => (checkAuth fetch s, Ok tt)
  end.

Definition logout (fetch : Api.network) (s : State) : State * result unit :=
  match Api.logout fetch with
  | Throw e => (s, Throw e)
  | Ok _ => (setUser None s, Ok tt)
  end.

(** The phase of the gate is what the route guards read off the three state
    cells, in the order both guards test them. *)
Inductive Phase : Type := Unresolved | SetupRequired | Unauthenticated | Authenticated.

Definition phase (s : State) : Phase :=
  if loading s then Unresolved
  else if truthy (setupNeeded s) then SetupRequired
  else if bool_decide (is_Some (user s)) then Authenticated
  else Unauthenticated.

End Auth.

(** ** Route guards and route table: the application shell *)

Module App.

Inductive mode : Type := ModeLogin | ModeSetup.
Inductive page : Type := Dashboard | ConfigLLM | ConfigIM | Chat.

Inductive element : Type :=
| Spinner
| Null
| Navigate (to : string)
| Login (m : mode)
| Page (p : page)
| Layout (child : element).

(** A guard receives the element of the matched child route, its
    [<Outlet />]. *)
Definition PrivateRoute (s : Auth.State) (outlet : element) : element :=
  if Auth.loading s then Spinner
  else if truthy (Auth.setupNeeded s) then Navigate "/setup"
  else if negb (bool_decide (is_Some (Auth.user s))) then Navigate "/login"
  else Layout outlet.

Definition PublicRoute (s : Auth.State) (outlet : element) : element :=
  if Auth.loading s then Null
  else if truthy (Auth.setupNeeded s) then outlet
  else if bool_decide (is_Some (Auth.user s)) then Navigate "/"
  else outlet.

Inductive guard : Type := Public | Private.

Definition routes : list (string * (guard * element)) :=
  [ ("/login", (Public, Login ModeLogin));
    ("/setup", (Public, Login ModeSetup));
    ("/", (Private, Page Dashboard));
    ("/monitor", (Private, Page Dashboard));
    ("/llm", (Private, Page ConfigLLM));
    ("/im", (Private, Page ConfigIM));
    ("/chat", (Private, Page Chat)) ].

(** How the router compares a pathname with the path of a route that has
    no parameters: letters without regard to case, and with any slashes at
    the end of either left out, so that [/login], [/LOGIN] and [/login/] are
    one path; what is left of [/] is the empty text, which stands for the
    root. *)
Definition lower (a : ascii) : ascii :=
  let n := nat_of_ascii a in
  if (65 <=? n)%nat && (n <=? 90)%nat then ascii_of_nat (n + 32) else a.

Fixpoint lowercase (t : string) : string :=
  match t with
  | String a rest => String (lower a) (lowercase rest)
  | EmptyString => EmptyString
  end.

Fixpoint drop_slashes (t : string) : string :=
  match t with
  | String a rest => if Ascii.eqb a "/" then drop_slashes rest else t
  | EmptyString => EmptyString
  end.

Definition canon (path : string) : string :=
  let p := String.rev (drop_slashes (String.rev (lowercase path))) in
  if String.eqb p "" then "/" else p.

Definition matches (pattern path : string) : bool :=
  String.eqb (canon path) (canon pattern).

(** The routes are tried in the order of the table; their paths are
    distinct, so the router's ranking picks the same one. *)
Fixpoint find_route (path : string) (rs : list (string * (guard * element)))
  : option (guard * element) :=
  match rs with
  | [] => None
  | (p, r) :: rest => if matches p path then Some r else find_route path rest
  end.

(** One render of the route matched by [path], the pathname as the router
    compares it: the browser's pathname with its percent escapes decoded;
    it begins with a slash and holds no line break. A path matching no
    listed route falls to the [*] route. *)
Definition render (s : Auth.State) (path : string) : element :=
  match find_route path routes with
  | Some (Public, el) => PublicRoute s el
  | Some (Private, el) => PrivateRoute s el
  | None => Navigate "/"
  end.

(** What ends up on screen: [<Navigate>] elements are followed. *)
Fixpoint settle (fuel : nat) (s : Auth.State) (path : string) : option element :=
  match render s path with
  | Navigate to =>
      match fuel with
      | O => None
      | S fuel' => settle fuel' s to
      end
  | el => Some el
  end.


End App.

(** ** Login and first-run setup form: [pages/Login.jsx] *)

Module LoginPage.

Record Form : Type := {
  password : string;
  confirm : string;
  error : string
}.

Definition setError (e : string) (f : Form) : Form :=
  {| password := password f; confirm := confirm f; error := e |}.

(** [handleSubmit]: the gate state and form afterwards, and the target of
    [navigate], if it was called. *)
Definition handleSubmit (m : App.mode) (fetch : Api.network)
    (s : Auth.State) (f : Form) : Auth.State * Form * option string :=
  let f := setError "" f in
  let isSetup := match m with App.ModeSetup => true | App.ModeLogin => false end in
  if isSetup && negb (String.eqb (password f) (confirm f)) then
    (s, setError "Passwords do not match" f, None)
  else
    let (s', r) :=
      if isSetup then Auth.setup fetch (password f) s
      else Auth.login fetch (password f) s in
    match r with
    | Ok _ => (s', f, Some "/")
    | Throw err =>
        let msg := message err in
        (s', setError (if String.eqb msg "" then "Failed to authenticate" else msg) f, None)
    end.

End LoginPage.

(** ** Chat console: [pages/Chat.jsx] *)

Module ChatPage.

Record Entry : Type := { text : value; sender : value }.

(** A [WebSocket] object: its URL and [readyState]
    (0 CONNECTING, 1 OPEN, 2 CLOSING, 3 CLOSED). *)
Record Socket : Type := { url : string; readyState : Z }.

Record Location : Type := { protocol : string; host : string }.

Inductive lifecycle : Type := Fresh | Mounted | Unmounted.

(** The component's state cells and refs, together with the part of the host
    its closures act on: every socket constructed so far (a socket is named
    by its position in [sockets], and [wsRef] holds such a name), the
    pending [setTimeout(connect, _)] timers with their delays, and the
    frames handed to an open socket, each the argument of
    [JSON.stringify]. *)
Record State : Type := {
  messages : list Entry;
  input : string;
  status : string;
  wsRef : option nat;
  sockets : list Socket;
  timers : list Z;
  outbox : list (nat * value);
  life : lifecycle
}.

Definition initial : State :=
  {| messages := []; input := ""; status := "Connecting..."; wsRef := None;
     sockets := []; timers := []; outbox := []; life := Fresh |}.

Definition is_mounted (s : State) : bool :=
  match life s with Mounted => true | _ => false end.

(** State setters; React drops an update of an unmounted component. *)
Definition setMessages (f : list Entry -> list Entry) (s : State) : State :=
  if is_mounted s then
    {| messages := f (messages s); input := input s; status := status s;
       wsRef := wsRef s; sockets := sockets s; timers := timers s;
       outbox := outbox s; life := life s |}
  else s.

Definition setInput (i : string) (s : State) : State :=
  if is_mounted s then
    {| messages := messages s; input := i; status := status s;
       wsRef := wsRef s; sockets := sockets s; timers := timers s;
       outbox := outbox s; life := life s |}
  else s.

Definition setStatus (st : string) (s : State) : State :=
  if is_mounted s then
    {| messages := messages s; input := input s; status := st;
       wsRef := wsRef s; sockets := sockets s; timers := timers s;
       outbox := outbox s; life := life s |}
  else s.

Definition with_sockets (ws : list Socket) (s : State) : State :=
  {| messages := messages s; input := input s; status := status s;
     wsRef := wsRef s; sockets := ws; timers := timers s;
     outbox := outbox s; life := life s |}.

Definition with_timers (ts : list Z) (s : State) : State :=
  {| messages := messages s; input := input s; status := status s;
     wsRef := wsRef s; sockets := sockets s; timers := ts;
     outbox := outbox s; life := life s |}.

Definition with_life (l : lifecycle) (s : State) : State :=
  {| messages := messages s; input := input s; status := status s;
     wsRef := wsRef s; sockets := sockets s; timers := timers s;
     outbox := outbox s; life := l |}.

Definition set_readyState (id : nat) (rs : Z) (s : State) : State :=
  match sockets s !! id with
  | Some sock => with_sockets (<[id := {| url := url sock; readyState := rs |}]> (sockets s)) s
  | None => s
  end.

(** [String.prototype.trim] on strings of 8-bit code units: the white space
    and line terminator code points below 256. *)
Definition is_space (a : ascii) : bool :=
  let n := nat_of_ascii a in
  ((9 <=? n)%nat && (n <=? 13)%nat) || (n =? 32)%nat || (n =? 160)%nat.

Fixpoint trim_start (s : string) : string :=
  match s with
  | String a rest => if is_space a then trim_start rest else s
  | EmptyString => EmptyString
  end.

Definition trim (s : string) : string :=
  String.rev (trim_start (String.rev (trim_start s))).

(** [connect]: constructs a socket (CONNECTING), arms its three handlers
    (the same closures for every socket) and stores it in [wsRef]. *)
Definition connect (loc : Location) (s : State) : State :=
  let protocol := if String.eqb (protocol loc) "https:" then "wss:" else "ws:" in
  let wsUrl := protocol ++ "//" ++ host loc ++ "/ws" in
  let ws := length (sockets s) in
  {| messages := messages s; input := input s; status := status s;
     wsRef := Some ws;
     sockets := (sockets s ++ [{| url := wsUrl; readyState := 0 |}])%list;
     timers := timers s; outbox := outbox s; life := life s |}.

Definition onopen (s : State) : State := setStatus "Connected" s.

Definition onclose (s : State) : State :=
  let s := setStatus "Disconnected" s in
  with_timers (timers s ++ [2000])%list s.

(** [onmessage]; [data] is the outcome of [JSON.parse(e.data)]. An
    exception inside the [try] is logged and dropped. *)
Definition onmessage (data : result value) (s : State) : State :=
  let tried :=
    d <- data ;;
    content <- get d "content" ;;
    if truthy content then
      from <- get d "sender" ;;
      Ok (setMessages
            (fun prev => (prev ++ [{| text := content; sender := or_else from (VStr "bot") |}])%list) s)
    else Ok s in
  match tried with
  | Ok s' => s'
  | Throw _ => s
  end.

(** [WebSocket.prototype.send]. *)
Definition ws_send (id : nat) (payload : value) (s : State) : State * result unit :=
  match sockets s !! id with
  | Some sock =>
      if readyState sock =? 0 then
        (s, Throw (DOMException "InvalidStateError" "Still in CONNECTING state."))
      else if readyState sock =? 1 then
        ({| messages := messages s; input := input s; status := status s;
            wsRef := wsRef s; sockets := sockets s; timers := timers s;
            outbox := (outbox s ++ [(id, payload)])%list; life := life s |}, Ok tt)
      else (s, Ok tt)
  | None => (s, Ok tt)
  end.

(** [WebSocket.prototype.close]: a socket not yet closing starts to close;
    the host delivers its close event later. *)
Definition ws_close (id : nat) (s : State) : State :=
  match sockets s !! id with
  | Some sock =>
      if (readyState sock =? 0) || (readyState sock =? 1) then set_readyState id 2 s
      else s
  | None => s
  end.

Definition ready (id : nat) (s : State) : option Z :=
  readyState <$> (sockets s !! id).

Definition user_entry (t : string) : Entry :=
  {| text := VStr t; sender := VStr "user" |}.

Definition outbound (t : string) : value :=
  VObj [("type", VStr "message"); ("content", VStr t)].

(** [sendMessage]; the result is what the handler returns or throws. *)
Definition sendMessage (s : State) : State * result unit :=
  if String.eqb (trim (input s)) "" then (s, Ok tt)
  else
    match wsRef s with
    | None => (s, Ok tt)
    | Some id =>
        if negb (bool_decide (ready id s = Some 1)) then (s, Ok tt)
        else
          let t := trim (input s) in
          let s := setMessages (fun prev => (prev ++ [user_entry t])%list) s in
          match ws_send id (outbound t) s with
          | (s, Throw e) => (s, Throw e)
          | (s, Ok _) => (setInput "" s, Ok tt)
          end
    end.

(** The transport is open: [wsRef.current] is set and its [readyState]
    is 1. *)
Definition transport_open (s : State) : bool :=
  match wsRef s with
  | Some id => bool_decide (ready id s = Some 1)
  | None => false
  end.

(** The entry [onmessage] appends for a frame with these fields. *)
Definition inbound_entry (fs : list (string * value)) : Entry :=
  {| text := default VUndefined (lookup_field "content" fs);
     sender := or_else (default VUndefined (lookup_field "sender" fs)) (VStr "bot") |}.

(** The unmount cleanup of the mount effect. *)
Definition cleanup (s : State) : State :=
  match wsRef s with
  | Some id => ws_close id s
  | None => s
  end.

(** Events dispatched by the host's event loop. [Closing] is the task the
    host runs when the closing handshake of an open socket starts, whichever
    side started it: it moves [readyState] to 2 and calls no handler; the
    close event follows later. *)
Inductive event : Type :=
| Mount
| Unmount
| Open (id : nat)
| Closing (id : nat)
| Close (id : nat)
| Message (id : nat) (data : result value)
| Timer
| Input (i : string)
| Submit.

(** One turn of the event loop. An event the host cannot deliver in the
    current state (an open event of a socket that is not connecting, a
    frame on a socket that is not open, a form event without a mounted
    form, ...) leaves the state as it is. *)
Definition step (loc : Location) (e : event) (s : State) : State :=
  match e with
  | Mount =>
      match life s with
      | Fresh => connect loc (with_life Mounted s)
      | _ => s
      end
  | Unmount =>
      match life s with
      | Mounted => cleanup (with_life Unmounted s)
      | _ => s
      end
  | Open id =>
      match ready id s with
      | Some 0 => onopen (set_readyState id 1 s)
      | _ => s
      end
  | Closing id =>
      match ready id s with
      | Some 1 => set_readyState id 2 s
      | _ => s
      end
  | Close id =>
      match ready id s with
      | Some 3 | None => s
      | Some _ => onclose (set_readyState id 3 s)
      end
  | Message id data =>
      match ready id s with
      | Some 1 => onmessage data s
      | _ => s
      end
  | Timer =>
      match timers s with
      | [] => s
      | _ :: rest => connect loc (with_timers rest s)
      end
  | Input i => setInput i s
  | Submit => if is_mounted s then fst (sendMessage s) else s
  end.

Definition run (loc : Location) (es : list event) (s : State) : State :=
  foldl (fun s e => step loc e s) s es.

End ChatPage.

(** ** System monitor: [pages/Dashboard.jsx] *)

Module DashboardPage.

(** The component's state cells and ref, together with the part of the host
    its effect acts on: the intervals [setInterval] has armed and not yet
    cleared (each with its id and period), the number of ids handed out,
    and the calls of [api.getSystemStats] started so far, with how many of
    them still await their answer. *)
Record State : Type := {
  stats : value;
  error : value;
  timerRef : option nat;
  intervals : list (nat * Z);
  created : nat;
  requests : nat;
  inflight : nat;
  life : ChatPage.lifecycle
}.

Definition initial : State :=
  {| stats := VNull; error := VNull; timerRef := None; intervals := [];
     created := 0; requests := 0; inflight := 0; life := ChatPage.Fresh |}.

Definition is_mounted (s : State) : bool :=
  match life s with ChatPage.Mounted => true | _ => false end.

(** React drops an update of an unmounted component. *)
Definition setStats (d : value) (s : State) : State :=
  if is_mounted s then
    {| stats := d; error := error s; timerRef := timerRef s;
       intervals := intervals s; created := created s;
       requests := requests s; inflight := inflight s; life := life s |}
  else s.

Definition with_life (l : ChatPage.lifecycle) (s : State) : State :=
  {| stats := stats s; error := error s; timerRef := timerRef s;
     intervals := intervals s; created := created s;
     requests := requests s; inflight := inflight s; life := l |}.

(** [fetchStats] up to its [await]: the request is started. *)
Definition fetchStats_start (s : State) : State :=
  {| stats := stats s; error := error s; timerRef := timerRef s;
     intervals := intervals s; created := created s;
     requests := S (requests s); inflight := S (inflight s); life := life s |}.

(** [fetchStats] from its [await] on, for what the network answered; a
    thrown error is logged and dropped. *)
Definition fetchStats_resume (a : Api.fetched) (s : State) : State :=
  match Api.getSystemStats (fun _ _ => a) with
  | Ok data => setStats data s
  | Throw _ => s
  end.

(** [setInterval(fetchStats, period)]: the id returned, and the host with
    the interval armed. *)
Definition setInterval (period : Z) (s : State) : nat * State :=
  (created s,
   {| stats := stats s; error := error s; timerRef := timerRef s;
      intervals := (intervals s ++ [(created s, period)])%list;
      created := S (created s);
      requests := requests s; inflight := inflight s; life := life s |}).

(** [clearInterval(timerRef.current)]; clearing [null] does nothing. *)
Definition clearInterval (ref : option nat) (s : State) : State :=
  match ref with
  | Some id =>
      {| stats := stats s; error := error s; timerRef := timerRef s;
         intervals := List.filter (fun iv => negb (Nat.eqb (fst iv) id)) (intervals s);
         created := created s;
         requests := requests s; inflight := inflight s; life := life s |}
  | None => s
  end.

(** The mount effect and its cleanup. *)
Definition effect (s : State) : State :=
  let s := fetchStats_start s in
  let (id, s) := setInterval 5000 s in
  {| stats := stats s; error := error s; timerRef := Some id;
     intervals := intervals s; created := created s;
     requests := requests s; inflight := inflight s; life := life s |}.

Definition cleanup (s : State) : State := clearInterval (timerRef s) s.

(** The component shows the spinner instead of the cards. *)
Definition spinner (s : State) : bool := negb (truthy (stats s)).

Definition armed (id : nat) (s : State) : bool :=
  existsb (fun iv => Nat.eqb (fst iv) id) (intervals s).

(** Events dispatched by the host: mount and unmount, an armed interval
    firing, and the answer to a request in flight. *)
Inductive event : Type :=
| Mount
| Unmount
| Tick (id : nat)
| Answer (a : Api.fetched).

Definition step (e : event) (s : State) : State :=
  match e with
  | Mount =>
      match life s with
      | ChatPage.Fresh => effect (with_life ChatPage.Mounted s)
      | _ => s
      end
  | Unmount =>
      match life s with
      | ChatPage.Mounted => cleanup (with_life ChatPage.Unmounted s)
      | _ => s
      end
  | Tick id => if armed id s then fetchStats_start s else s
  | Answer a =>
      match inflight s with
      | O => s
      | S n =>
          fetchStats_resume a
            {| stats := stats s; error := error s; timerRef := timerRef s;
               intervals := intervals s; created := created s;
               requests := requests s; inflight := n; life := life s |}
      end
  end.

Definition run (es : list event) (s : State) : State :=
  foldl (fun s e => step e s) s es.

End DashboardPage.

(** ** Settings pages: loading and saving in [pages/ConfigIM.jsx] and
       [pages/ConfigLLM.jsx] *)

Module Assign.

Definition null_write (k : string) : string :=
  "Cannot set properties of null (setting '" ++ k ++ "')".

Definition undefined_write (k : string) : string :=
  "Cannot set properties of undefined (setting '" ++ k ++ "')".

Definition primitive_write (k kind shown : string) : string :=
  "Cannot create property '" ++ k ++ "' on " ++ kind ++ " '" ++ shown ++ "'".

(** [o.k = v] in module (strict) code, as [JSON.stringify] will see [o]
    afterwards. In the list of bindings of an object the new binding goes
    last, where [lookup_field] finds it first. An array takes the property,
    but its serialisation, the entries alone, does not show it. A primitive
    cannot take a property. *)
Definition put (o : value) (k : string) (v : value) : result value :=
  match o with
  | VObj fs => Ok (VObj (fs ++ [(k, v)])%list)
  | VArr items => Ok (VArr items)
  | VNull => Throw (TypeError (null_write k))
  | VUndefined => Throw (TypeError (undefined_write k))
  | VBool b => Throw (TypeError (primitive_write k "boolean" (if b then "true" else "false")))
  | VNum repr => Throw (TypeError (primitive_write k "number" repr))
  | VStr s => Throw (TypeError (primitive_write k "string" s))
  end.

End Assign.

Module ConfigIMPage.

(** The component's state cells, and the texts handed to [alert] so far. *)
Record State : Type := {
  imConfig : value;
  loading : bool;
  alerts : list string
}.

Definition initial : State :=
  {| imConfig := VArr []; loading := true; alerts := [] |}.

Definition setImConfig (v : value) (s : State) : State :=
  {| imConfig := v; loading := loading s; alerts := alerts s |}.
Definition setLoading (b : bool) (s : State) : State :=
  {| imConfig := imConfig s; loading := b; alerts := alerts s |}.
Definition alert (msg : string) (s : State) : State :=
  {| imConfig := imConfig s; loading := loading s; alerts := (alerts s ++ [msg])%list |}.

(** [loadConfig]: an exception inside the [try] is logged and dropped; the
    [finally] ends the loading. ([im] is not a built-in property of a
    string, number, boolean or array.) *)
Definition loadConfig (fetch : Api.network) (s : State) : State :=
  let tried :=
    data <- Api.getConfig fetch ;;
    im <- get data "im" ;;
    Ok (setImConfig (or_else im (VArr [])) s) in
  setLoading false (match tried with Ok s' => s' | Throw _ => s end).

(** The [try] block of [saveConfig] up to the value it hands to
    [api.saveConfig]. *)
Definition saveConfig_body (fetch : Api.network) (s : State) : result value :=
  config <- Api.getConfig fetch ;;
  Assign.put config "im" (imConfig s).

Definition saveConfig (fetch : Api.network) (s : State) : State :=
  let tried :=
    config <- saveConfig_body fetch s ;;
    Api.saveConfig fetch config in
  match tried with
  | Ok _ => alert "Saved successfully" s
  | Throw error => alert ("Error saving: " ++ message error) s
  end.

End ConfigIMPage.

Module ConfigLLMPage.

Record State : Type := {
  llmConfig : value;
  loading : bool;
  alerts : list string
}.

Definition initial : State :=
  {| llmConfig := VNull; loading := true; alerts := [] |}.

Definition setLlmConfig (v : value) (s : State) : State :=
  {| llmConfig := v; loading := loading s; alerts := alerts s |}.
Definition setLoading (b : bool) (s : State) : State :=
  {| llmConfig := llmConfig s; loading := b; alerts := alerts s |}.
Definition alert (msg : string) (s : State) : State :=
  {| llmConfig := llmConfig s; loading := loading s; alerts := (alerts s ++ [msg])%list |}.

(** [loadConfig]. ([llm] and [providers] are not built-in properties of a
    string, number, boolean or array.) *)
Definition loadConfig (fetch : Api.network) (s : State) : State :=
  let tried :=
    data <- Api.getConfig fetch ;;
    llm <- get data "llm" ;;
    Ok (setLlmConfig (or_else llm (VObj [("providers", VObj [])])) s) in
  setLoading false (match tried with Ok s' => s' | Throw _ => s end).

Definition saveConfig_body (fetch : Api.network) (s : State) : result value :=
  config <- Api.getConfig fetch ;;
  Assign.put config "llm" (llmConfig s).

Definition saveConfig (fetch : Api.network) (s : State) : State :=
  let tried :=
    config <- saveConfig_body fetch s ;;
    Api.saveConfig fetch config in
  match tried with
  | Ok _ => alert "Saved successfully" s
  | Throw error => alert ("Error saving: " ++ message error) s
  end.

(** The render up to its first read of the state: the spinner while
    loading ([None]), otherwise the argument [llmConfig.providers || {}] of
    [Object.entries]. *)
Definition render_providers (s : State) : result (option value) :=
  if loading s then Ok None
  else
    providers <- get (llmConfig s) "providers" ;;
    Ok (Some (or_else providers (VObj []))).

End ConfigLLMPage.

(** ** Sample inputs *)

(** Networks and gate states. *)
Definition offline : Api.network :=
  fun _ _ => Api.NetworkError "Failed to fetch".

Definition answers (status : Z) (data : value) : Api.network :=
  fun _ _ => Api.Response status (Ok data).

Definition bad_password : Api.network :=
  answers 401 (VObj [("error", VStr "bad password")]).

Definition signed_in : Auth.State :=
  {| Auth.user := Some {| Auth.authenticated := true |};
     Auth.loading := false; Auth.setupNeeded := VBool false |}.

Definition signed_out : Auth.State :=
  {| Auth.user := None; Auth.loading := false; Auth.setupNeeded := VBool false |}.


(** The endpoint the form posts to in each mode. *)
Definition submit_endpoint (m : App.mode) : string :=
  match m with App.ModeLogin => "/login" | App.ModeSetup => "/setup" end.

Definition blank (password : string) : LoginPage.Form :=
  {| LoginPage.password := password; LoginPage.confirm := ""; LoginPage.error := "" |}.

(** Page location, frames and console states. *)
Definition admin_host : ChatPage.Location :=
  {| ChatPage.protocol := "https:"; ChatPage.host := "bot.example" |}.

Definition frame (content : string) : result value :=
  Ok (VObj [("content", VStr content)]).


(** Mounted, socket 0 still connecting, [hello] typed. *)
Definition typed_while_connecting : ChatPage.State :=
  ChatPage.run admin_host [ChatPage.Mount; ChatPage.Input "hello"] ChatPage.initial.

(** Mounted, socket 0 open, [hello] typed. *)
Definition typed_while_open : ChatPage.State :=
  ChatPage.run admin_host
    [ChatPage.Mount; ChatPage.Open 0%nat; ChatPage.Input "hello"] ChatPage.initial.

(** Further networks: a server whose answer to the session check is
    [{authenticated, setup_needed}], and one that accepts any credentials
    while the session check cannot be reached. *)
Definition session (authenticated setup_needed : bool) : value :=
  VObj [("authenticated", VBool authenticated); ("setup_needed", VBool setup_needed)].

Definition check_unreachable : Api.network :=
  fun url _ =>
    if String.eqb url "/api/check-auth" then Api.NetworkError "Failed to fetch"
    else Api.Response 200 (Ok (VObj [("success", VBool true)])).

(** ** Derived notions of the chat console *)



(** A text of white space only, as [trim] sees it. *)
Definition all_space (i : string) : bool :=
  forallb ChatPage.is_space (list_ascii_of_string i).

(** A socket whose close event has been delivered. *)
Definition closed (k : ChatPage.Socket) : bool := ChatPage.readyState k =? 3.

(** An entry whose [text] and [sender] are both truthy values. (This says
    nothing of what is drawn for the text: [true] and a text of white space
    are truthy.) *)
Definition truthy_entry (e : ChatPage.Entry) : bool :=
  truthy (ChatPage.text e) && truthy (ChatPage.sender e).

(** The URL [connect] builds for a page location. *)
Definition ws_url (loc : ChatPage.Location) : string :=
  (if String.eqb (ChatPage.protocol loc) "https:" then "wss:" else "ws:")
    ++ "//" ++ ChatPage.host loc ++ "/ws".

(** The connection bookkeeping: before the mount there is no socket, timer
    or reference; afterwards the sockets constructed so far are a run of
    closed ones followed by the one [wsRef] names, and a reconnection timer
    is pending exactly when that last socket is closed too. *)
Definition linked (s : ChatPage.State) : Prop :=
  match ChatPage.life s with
  | ChatPage.Fresh =>
      ChatPage.sockets s = [] /\ ChatPage.timers s = [] /\ ChatPage.wsRef s = None
  | _ =>
      exists olds last,
        ChatPage.sockets s = (olds ++ [last])%list /\
        ChatPage.wsRef s = Some (length olds) /\
        Forall (fun k => closed k = true) olds /\
        ChatPage.timers s = (if closed last then [2000] else [])
  end.

(** [linked], together with what the status line says: [Connecting...]
    before the mount and, while mounted, [Connected] exactly when the
    socket [wsRef] names has opened and has not closed yet (it is open or
    closing). *)
Definition synced (s : ChatPage.State) : Prop :=
  match ChatPage.life s with
  | ChatPage.Fresh =>
      ChatPage.sockets s = [] /\ ChatPage.timers s = [] /\ ChatPage.wsRef s = None /\
      ChatPage.status s = "Connecting..."
  | l =>
      exists olds last,
        ChatPage.sockets s = (olds ++ [last])%list /\
        ChatPage.wsRef s = Some (length olds) /\
        Forall (fun k => closed k = true) olds /\
        ChatPage.timers s = (if closed last then [2000] else []) /\
        (l = ChatPage.Mounted ->
         (ChatPage.status s = "Connected" <->
          ChatPage.readyState last = 1 \/ ChatPage.readyState last = 2))
  end.

(** ** Derived notions of the system monitor *)

(** Before the mount no interval is armed; while mounted the one interval
    armed is the one [timerRef] names; after the unmount none is left. *)
Definition polling (s : DashboardPage.State) : Prop :=
  match DashboardPage.life s with
  | ChatPage.Fresh => DashboardPage.intervals s = [] /\ DashboardPage.timerRef s = None
  | ChatPage.Mounted => exists id, DashboardPage.timerRef s = Some id /\ DashboardPage.intervals s = [(id, 5000)]
  | ChatPage.Unmounted => DashboardPage.intervals s = []
  end.

(** What a session check reads off the server's answer: the values of
    [authenticated] and [setup_needed], when the request returned a body
    with properties to read. *)
Definition check_answer (fetch : Api.network) : option (value * value) :=
  match Api.checkAuth fetch with
  | Ok d =>
      match get d "authenticated", get d "setup_needed" with
      | Ok a, Ok sn => Some (a, sn)
      | _, _ => None
      end
  | Throw _ => None
  end.

(** * Properties *)

(** ** Credential client *)

Section ApiFacts.
Import Api.
Variable fetch : network.

Lemma request_network_error endpoint opts m :
  fetch (API_BASE ++ endpoint) opts = NetworkError m ->
  request fetch endpoint opts = Throw (TypeError m).
Proof. intros H. unfold request. now rewrite H. Qed.

Lemma request_unauthorized endpoint opts json :
  fetch (API_BASE ++ endpoint) opts = Response 401 json ->
  request fetch endpoint opts = Throw (ApiError "Unauthorized" 401).
Proof. intros H. unfold request. now rewrite H. Qed.

Lemma request_error_field endpoint opts status fs msg :
  fetch (API_BASE ++ endpoint) opts = Response status (Ok (VObj fs)) ->
  lookup_field "error" fs = Some (VStr msg) ->
  msg <> "" ->
  ok status = false ->
  status <> 401 ->
  request fetch endpoint opts = Throw (ApiError msg status).
Proof.
  intros Hf Hl Hm Hok Hs. unfold request. rewrite Hf.
  apply Z.eqb_neq in Hs. rewrite Hs. cbn. rewrite Hok, Hl. cbn.
  unfold or_else. cbn. apply String.eqb_neq in Hm. now rewrite Hm.
Qed.

Lemma request_ok endpoint opts status data :
  fetch (API_BASE ++ endpoint) opts = Response status (Ok data) ->
  ok status = true ->
  request fetch endpoint opts = Ok data.
Proof.
  intros Hf Hok. unfold request. rewrite Hf.
  assert ((status =? 401) = false) as ->.
  { unfold ok in Hok. apply andb_prop in Hok as [_ H]. lia. }
  cbn. now rewrite Hok.
Qed.

End ApiFacts.

(** ** Session gate *)

Section AuthFacts.
Import Auth.


Lemma phase_SetupRequired s :
  phase s = SetupRequired <-> loading s = false /\ truthy (setupNeeded s) = true.
Proof.
  unfold phase. destruct (loading s); [easy|].
  destruct (truthy _); [easy|]. now destruct (bool_decide _).
Qed.

Lemma phase_resolved_no_setup s :
  phase s = Authenticated \/ phase s = Unauthenticated <->
  loading s = false /\ truthy (setupNeeded s) = false.
Proof.
  unfold phase. destruct (loading s); [intuition congruence|].
  destruct (truthy _); [intuition congruence|].
  destruct (bool_decide _); intuition congruence.
Qed.

Lemma checkAuth_resolves fetch s : loading (checkAuth fetch s) = false.
Proof. unfold checkAuth. now destruct (checkAuth_try fetch s). Qed.

(** Whatever the server says about the session, a truthy [setup_needed]
    in the answer to the check puts the gate in [SetupRequired]. *)
Lemma checkAuth_setup_precedence fetch s status fs sn :
  fetch "/api/check-auth" {| Api.method := "GET"; Api.body := None |}
    = Api.Response status (Ok (VObj fs)) ->
  Api.ok status = true ->
  lookup_field "setup_needed" fs = Some sn ->
  truthy sn = true ->
  phase (checkAuth fetch s) = SetupRequired.
Proof.
  intros Hf Hok Hl Ht. apply phase_SetupRequired. split; [apply checkAuth_resolves|].
  unfold checkAuth, checkAuth_try, Api.checkAuth.
  rewrite (request_ok fetch "/check-auth" _ status (VObj fs) Hf Hok).
  cbn. rewrite Hl. cbn. exact Ht.
Qed.

Lemma logout_failure fetch s e :
  Api.logout fetch = Throw e -> logout fetch s = (s, Throw e).
Proof. intros H. unfold logout. now rewrite H. Qed.

End AuthFacts.

(** C1, as stated, fails: when the logout request is rejected, [logout]
    throws before it clears the user, and an authenticated gate stays
    authenticated. *)
Lemma logout_offline_stays_authenticated :
  Auth.phase signed_in = Auth.Authenticated /\
  Auth.logout offline signed_in = (signed_in, Throw (TypeError "Failed to fetch")) /\
  Auth.phase (fst (Auth.logout offline signed_in)) <> Auth.Unauthenticated.
Proof. repeat split. discriminate. Qed.

(** C1, amended: when the logout request succeeds, [logout] clears the user
    and returns normally; from a resolved gate with no setup needed the phase
    is then Unauthenticated. *)
Theorem logout_success_unauthenticated (fetch : Api.network) (s : Auth.State) (d : value) :
  Api.logout fetch = Ok d ->
  Auth.phase s = Auth.Authenticated \/ Auth.phase s = Auth.Unauthenticated ->
  Auth.logout fetch s = (Auth.setUser None s, Ok tt) /\
  Auth.phase (fst (Auth.logout fetch s)) = Auth.Unauthenticated.
Proof.
  intros Hd Hp. apply phase_resolved_no_setup in Hp as [Hl Ht].
  unfold Auth.logout. rewrite Hd. split; [reflexivity|].
  cbn. unfold Auth.phase. cbn. now rewrite Hl, Ht.
Qed.

Lemma logout_success_unauthenticated_witness :
  Auth.phase (fst (Auth.logout (answers 200 (VObj [("ok", VBool true)])) signed_in))
    = Auth.Unauthenticated.
Proof.
  apply (logout_success_unauthenticated
           (answers 200 (VObj [("ok", VBool true)])) signed_in
           (VObj [("ok", VBool true)])).
  - reflexivity.
  - left. reflexivity.
Defined.

(** C8, as stated, fails: a login refused with status 401 and
    [{error: "bad password"}] leaves the phase alone, but the error that
    reaches the caller carries the fixed text [Unauthorized], not the
    server's message. *)
Lemma login_401_drops_server_message :
  Api.login bad_password "wrong" = Throw (ApiError "Unauthorized" 401) /\
  Auth.login bad_password "wrong" signed_out
    = (signed_out, Throw (ApiError "Unauthorized" 401)) /\
  ~ (exists status, snd (Auth.login bad_password "wrong" signed_out)
                    = Throw (ApiError "bad password" status)).
Proof.
  repeat split. intros [status H]. cbn in H. discriminate.
Qed.

(** C8, amended: when the credential request of [login] throws, the gate's
    state, hence its phase, is what it was before the call, and the very
    error the request threw is propagated to the caller. *)
Theorem login_failure_propagates (fetch : Api.network) (password : string)
    (s : Auth.State) (e : exn) :
  Api.login fetch password = Throw e ->
  Auth.login fetch password s = (s, Throw e) /\
  Auth.phase (fst (Auth.login fetch password s)) = Auth.phase s.
Proof.
  intros H. unfold Auth.login. rewrite H. now split.
Qed.

Lemma login_failure_propagates_witness :
  Auth.login offline "secret" signed_out
    = (signed_out, Throw (TypeError "Failed to fetch")) /\
  Auth.phase (fst (Auth.login offline "secret" signed_out)) = Auth.phase signed_out.
Proof.
  apply (login_failure_propagates offline "secret" signed_out
           (TypeError "Failed to fetch")).
  reflexivity.
Defined.

(** ** Login form *)

Lemma handleSubmit_failure (m : App.mode) (fetch : Api.network)
    (s : Auth.State) (f : LoginPage.Form) (e : exn) :
  Api.request fetch (submit_endpoint m) (Api.credentials (LoginPage.password f)) = Throw e ->
  (m = App.ModeSetup -> LoginPage.password f = LoginPage.confirm f) ->
  message e <> "" ->
  LoginPage.handleSubmit m fetch s f
    = (s, LoginPage.setError (message e) (LoginPage.setError "" f), None).
Proof.
  intros He Hc Hm. apply String.eqb_neq in Hm.
  unfold LoginPage.handleSubmit. destruct m; cbn.
  - unfold Auth.login, Api.login. cbn in He. rewrite He. now rewrite Hm.
  - rewrite <- (Hc eq_refl), String.eqb_refl. cbn.
    unfold Auth.setup, Api.setup. cbn in He. rewrite He. now rewrite Hm.
Qed.

(** C5, as stated, fails: for a login answered with status 401 and
    [{error: "bad password"}] the wrapper throws before it reads the body;
    the error carries [Unauthorized] and that is what the form shows. *)
Lemma unauthorized_hides_server_message :
  Api.login bad_password "wrong" = Throw (ApiError "Unauthorized" 401) /\
  LoginPage.error (LoginPage.handleSubmit App.ModeLogin bad_password signed_out (blank "wrong")).1.2
    = "Unauthorized" /\
  Api.login bad_password "wrong" <> Throw (ApiError "bad password" 401).
Proof. repeat split. discriminate. Qed.

(** C5, amended: for every non-2xx answer to a login or setup submission
    that carries a non-empty [error] string, the wrapper throws an
    [ApiError] with the HTTP status whose message is that string when the
    status is not 401 and the fixed text [Unauthorized] when it is, and the
    form shows that message, the gate being left as it was. *)
Theorem server_error_surfaced (fetch : Api.network) (m : App.mode)
    (s : Auth.State) (f : LoginPage.Form)
    (status : Z) (fs : list (string * value)) (msg : string) :
  fetch (Api.API_BASE ++ submit_endpoint m) (Api.credentials (LoginPage.password f))
    = Api.Response status (Ok (VObj fs)) ->
  lookup_field "error" fs = Some (VStr msg) ->
  msg <> "" ->
  Api.ok status = false ->
  (m = App.ModeSetup -> LoginPage.password f = LoginPage.confirm f) ->
  let shown := if status =? 401 then "Unauthorized" else msg in
  Api.request fetch (submit_endpoint m) (Api.credentials (LoginPage.password f))
    = Throw (ApiError shown status) /\
  LoginPage.handleSubmit m fetch s f
    = (s, LoginPage.setError shown (LoginPage.setError "" f), None).
Proof.
  intros Hf Hl Hm Hok Hc shown.
  assert (Api.request fetch (submit_endpoint m) (Api.credentials (LoginPage.password f))
          = Throw (ApiError shown status)) as Hr.
  { subst shown. destruct (Z.eqb_spec status 401) as [->|Hs].
    - eapply request_unauthorized, Hf.
    - eapply request_error_field; eauto. }
  split; [exact Hr|].
  apply (handleSubmit_failure m fetch s f _ Hr Hc).
  subst shown. cbn. now destruct (status =? 401).
Qed.

Lemma server_error_surfaced_witness :
  Api.request (answers 403 (VObj [("error", VStr "locked out")])) "/login"
      (Api.credentials "secret")
    = Throw (ApiError "locked out" 403) /\
  LoginPage.handleSubmit App.ModeLogin (answers 403 (VObj [("error", VStr "locked out")]))
      signed_out (blank "secret")
    = (signed_out, LoginPage.setError "locked out" (blank "secret"), None).
Proof.
  apply (server_error_surfaced (answers 403 (VObj [("error", VStr "locked out")]))
           App.ModeLogin signed_out (blank "secret") 403
           [("error", VStr "locked out")] "locked out").
  - reflexivity.
  - reflexivity.
  - discriminate.
  - reflexivity.
  - discriminate.
Defined.

(** ** Route guards *)

(** A pathname matches the paths of one route only. *)
Lemma matches_excl (p q path : string) :
  App.matches p path = true -> App.canon p <> App.canon q -> App.matches q path = false.
Proof.
  unfold App.matches. intros H Hn. apply String.eqb_eq in H. apply String.eqb_neq.
  congruence.
Qed.

(** Splits on which listed route, if any, [path] matches. *)
Ltac route_cases path :=
  unfold App.settle, App.render, App.routes, App.find_route;
  repeat match goal with
         | |- context [App.matches ?p path] =>
             let E := fresh "E" in
             destruct (App.matches p path) eqn:E;
             [ repeat match goal with
                      | |- context [App.matches ?q path] =>
                          rewrite (matches_excl p q path E) by (vm_compute; discriminate)
                      end;
               cbv iota
             | ]
         end.

Section RouteFacts.
Import App.

(** Redirections always come to rest: no path needs more than two. *)
Lemma settle_total (s : Auth.State) (path : string) :
  exists el, settle 2 s path = Some el /\ forall to, el <> Navigate to.
Proof.
  destruct s as [u l sn].
  route_cases path; unfold PublicRoute, PrivateRoute; cbn;
    destruct l, (truthy sn) eqn:Ht, u; cbn; rewrite ?Ht; cbn;
    eexists; (split; [reflexivity | discriminate]).
Qed.







End RouteFacts.

(** ** Chat console *)

Section ChatFacts.
Import ChatPage.
Variable loc : Location.

Lemma transport_open_spec (s : State) :
  transport_open s = true <-> exists id, wsRef s = Some id /\ ready id s = Some 1.
Proof.
  unfold transport_open. destruct (wsRef s) as [id|].
  - rewrite bool_decide_eq_true. split; [eauto | now intros (? & [= <-] & ?)].
  - split; [discriminate | now intros (? & ? & ?)].
Qed.

(** A submission while the transport is not open is dropped whole. *)
Lemma sendMessage_not_open (s : State) :
  transport_open s = false -> sendMessage s = (s, Ok tt).
Proof.
  unfold transport_open, sendMessage. intros H.
  destruct (String.eqb _ _); [reflexivity|].
  destruct (wsRef s); [|reflexivity]. now rewrite H.
Qed.

Lemma sendMessage_open (s : State) (id : nat) :
  is_mounted s = true ->
  trim (input s) <> "" ->
  wsRef s = Some id ->
  ready id s = Some 1 ->
  sendMessage s =
    ({| messages := (messages s ++ [user_entry (trim (input s))])%list;
        input := ""; status := status s; wsRef := wsRef s;
        sockets := sockets s; timers := timers s;
        outbox := (outbox s ++ [(id, outbound (trim (input s)))])%list;
        life := life s |}, Ok tt).
Proof.
  intros Hm Ht Hw Hr. apply String.eqb_neq in Ht.
  unfold sendMessage. rewrite Ht, Hw. rewrite bool_decide_true by exact Hr. cbn.
  unfold setMessages. rewrite Hm. unfold ws_send. cbn.
  unfold ready in Hr. destruct (sockets s !! id) as [sock|] eqn:Hs; [|discriminate].
  cbn in Hr. injection Hr as Hr. rewrite Hr. cbn.
  unfold setInput, is_mounted in *. cbn. destruct (life s); try discriminate. now rewrite Hw.
Qed.

Lemma onmessage_content (s : State) (fs : list (string * value)) :
  truthy (default VUndefined (lookup_field "content" fs)) = true ->
  onmessage (Ok (VObj fs)) s
    = setMessages (fun prev => (prev ++ [inbound_entry fs])%list) s.
Proof. intros H. unfold onmessage. cbn. now rewrite H. Qed.

Lemma onmessage_no_content (s : State) (fs : list (string * value)) :
  truthy (default VUndefined (lookup_field "content" fs)) = false ->
  onmessage (Ok (VObj fs)) s = s.
Proof. intros H. unfold onmessage. cbn. now rewrite H. Qed.











End ChatFacts.

Import ChatPage.

(** C3, as stated, fails: a non-empty submission made while the socket is
    still connecting returns at the guard; nothing is appended. *)
Lemma submit_while_connecting_appends_nothing :
  trim (input typed_while_connecting) = "hello" /\
  transport_open typed_while_connecting = false /\
  messages (step admin_host Submit typed_while_connecting) = [] /\
  messages (step admin_host Submit typed_while_connecting)
    <> (messages typed_while_connecting ++ [user_entry "hello"])%list.
Proof. repeat split. discriminate. Qed.

(** C3, amended: a submission whose text is non-empty after trimming
    appends the entry [{text: trimmed, sender: "user"}] to the log exactly
    when the transport is open; when it is not, the log is left as it is. *)
Theorem submit_appends_iff_open (s : State) :
  is_mounted s = true ->
  trim (input s) <> "" ->
  messages (fst (sendMessage s))
    = if transport_open s then (messages s ++ [user_entry (trim (input s))])%list
      else messages s.
Proof.
  intros Hm Ht. destruct (transport_open s) eqn:Ho.
  - apply transport_open_spec in Ho as (id & Hw & Hr).
    now rewrite (sendMessage_open s id Hm Ht Hw Hr).
  - now rewrite (sendMessage_not_open s Ho).
Qed.

Lemma submit_appends_iff_open_witness :
  messages (fst (sendMessage typed_while_open)) = [user_entry "hello"].
Proof.
  apply (submit_appends_iff_open typed_while_open).
  - reflexivity.
  - discriminate.
Defined.

(** C4, as stated, fails: [sendMessage] on a transport that is not open
    transmits nothing, but it returns normally; no error reaches the
    caller. *)
Lemma send_while_connecting_is_silent :
  transport_open typed_while_connecting = false /\
  sendMessage typed_while_connecting = (typed_while_connecting, Ok tt) /\
  ~ (exists e, snd (sendMessage typed_while_connecting) = Throw e).
Proof. repeat split. intros [e H]. discriminate. Qed.

(** C4, amended: for every call of [sendMessage] while the transport is not
    open, nothing is handed to a socket and the call returns normally,
    leaving the whole state, log and input included, as it was. *)
Theorem send_not_open_is_dropped (s : State) :
  transport_open s = false ->
  sendMessage s = (s, Ok tt) /\ outbox (fst (sendMessage s)) = outbox s.
Proof.
  intros H. now rewrite (sendMessage_not_open s H).
Qed.

Lemma send_not_open_is_dropped_witness :
  sendMessage typed_while_connecting = (typed_while_connecting, Ok tt) /\
  outbox (fst (sendMessage typed_while_connecting)) = outbox typed_while_connecting.
Proof.
  apply (send_not_open_is_dropped typed_while_connecting). reflexivity.
Defined.

(** C10: an inbound frame whose [content] is the empty string is dropped as
    a frame without [content] is: the handler leaves the state, and so the
    log, untouched, whatever else the frame carries. *)
Theorem empty_content_dropped (loc : Location) (s : State) (id : nat)
    (fs : list (string * value)) :
  lookup_field "content" fs = Some (VStr "") ->
  onmessage (Ok (VObj fs)) s = s /\
  messages (step loc (Message id (Ok (VObj fs))) s) = messages s /\
  (forall fs', lookup_field "content" fs' = None ->
               onmessage (Ok (VObj fs')) s = onmessage (Ok (VObj fs)) s).
Proof.
  intros H.
  assert (onmessage (Ok (VObj fs)) s = s) as Hdrop.
  { apply onmessage_no_content. now rewrite H. }
  repeat split.
  - exact Hdrop.
  - cbn. rewrite Hdrop. now destruct (ready id s) as [[| [] |]|].
  - intros fs' H'. rewrite Hdrop. apply onmessage_no_content. now rewrite H'.
Qed.

Lemma empty_content_dropped_witness :
  onmessage (Ok (VObj [("content", VStr ""); ("sender", VStr "mika")])) typed_while_open
    = typed_while_open.
Proof.
  refine (proj1 (empty_content_dropped admin_host typed_while_open 0%nat
                   [("content", VStr ""); ("sender", VStr "mika")] _)).
  reflexivity.
Defined.




(** C6: the code at the failing run. After mount and open, the unmount
    cleanup closes the socket; its close event runs the same [onclose] as
    any other, which arms the 2000 ms timer, and when that fires a second
    socket is constructed although the component is gone. *)
Theorem unmount_close_reconnects :
  let torn_down := run admin_host [Mount; Open 0%nat; Unmount] initial in
  let closed := step admin_host (Close 0%nat) torn_down in
  let later := step admin_host Timer closed in
  life torn_down = Unmounted /\
  ready 0%nat torn_down = Some 2 /\ timers torn_down = [] /\
  timers closed = [2000] /\
  length (sockets closed) = 1%nat /\
  length (sockets later) = 2%nat /\
  ready 1%nat later = Some 0 /\ wsRef later = Some 1%nat.
Proof. cbn. repeat split. Qed.

(** * Further properties of the modelled code *)

(** ** Credential client *)

Lemma request_ok_inv (fetch : Api.network) (endpoint : string)
    (opts : Api.options) (data : value) :
  Api.request fetch endpoint opts = Ok data ->
  exists status,
    fetch (Api.API_BASE ++ endpoint) opts = Api.Response status (Ok data) /\
    Api.ok status = true.
Proof.
  unfold Api.request. destruct (fetch _ _) as [m|status json]; [discriminate|].
  destruct (Z.eqb_spec status 401) as [->|Hs]; [discriminate|].
  destruct json as [d|e]; cbn; [|discriminate].
  destruct (Api.ok status) eqn:Hok; cbn.
  - intros [= ->]. eauto.
  - destruct (get d "error") as [err|e]; cbn; [|discriminate].
    unfold Api.new_ApiError. now destruct (to_string _).
Qed.

(** X1: [request] returns a value exactly when the response has a 2xx
    status and a body that decodes, and the value is that decoded body. *)
Theorem request_returns_iff_2xx (fetch : Api.network) (endpoint : string)
    (opts : Api.options) (data : value) :
  Api.request fetch endpoint opts = Ok data <->
  exists status,
    fetch (Api.API_BASE ++ endpoint) opts = Api.Response status (Ok data) /\
    Api.ok status = true.
Proof.
  split.
  - apply request_ok_inv.
  - intros (status & Hf & Hok). eapply request_ok; eauto.
Qed.

(** X2: for a non-2xx status other than 401, a decoded object body whose
    [error] field is missing or falsy yields an [ApiError] with the fixed
    message [API Error] and the response's status. *)
Theorem request_error_fallback (fetch : Api.network) (endpoint : string)
    (opts : Api.options) (status : Z) (fs : list (string * value)) :
  fetch (Api.API_BASE ++ endpoint) opts = Api.Response status (Ok (VObj fs)) ->
  Api.ok status = false ->
  status <> 401 ->
  truthy (default VUndefined (lookup_field "error" fs)) = false ->
  Api.request fetch endpoint opts = Throw (ApiError "API Error" status).
Proof.
  intros Hf Hok Hs Ht. unfold Api.request. rewrite Hf.
  apply Z.eqb_neq in Hs. rewrite Hs. cbn. rewrite Hok. cbn.
  unfold or_else. now rewrite Ht.
Qed.

Lemma request_error_fallback_witness :
  Api.request (answers 500 (VObj [("error", VStr "")])) "/config"
      {| Api.method := "GET"; Api.body := None |}
    = Throw (ApiError "API Error" 500).
Proof.
  apply (request_error_fallback (answers 500 (VObj [("error", VStr "")])) "/config"
           {| Api.method := "GET"; Api.body := None |} 500 [("error", VStr "")]).
  - reflexivity.
  - reflexivity.
  - discriminate.
  - reflexivity.
Defined.

(** X3: when the body of a response fails to decode, [request] throws the
    decoding error whatever the status, a 2xx included; only a 401 is
    reported as [Unauthorized] first, since its body is never read. *)
Theorem request_decode_failure (fetch : Api.network) (endpoint : string)
    (opts : Api.options) (status : Z) (e : exn) :
  fetch (Api.API_BASE ++ endpoint) opts = Api.Response status (Throw e) ->
  Api.request fetch endpoint opts
    = Throw (if status =? 401 then ApiError "Unauthorized" 401 else e).
Proof.
  intros Hf. unfold Api.request. rewrite Hf. now destruct (status =? 401).
Qed.

Lemma request_decode_failure_witness :
  Api.request (fun _ _ => Api.Response 200 (Throw (SyntaxError "Unexpected token <")))
      "/system" {| Api.method := "GET"; Api.body := None |}
    = Throw (SyntaxError "Unexpected token <").
Proof.
  apply (request_decode_failure
           (fun _ _ => Api.Response 200 (Throw (SyntaxError "Unexpected token <")))
           "/system" {| Api.method := "GET"; Api.body := None |} 200
           (SyntaxError "Unexpected token <")).
  reflexivity.
Defined.

Lemma get_throws_TypeError (d : value) (k : string) (e : exn) :
  get d k = Throw e -> exists msg, e = TypeError msg.
Proof. destruct d; cbn; intros [= <-]; eauto. Qed.

Lemma to_string_throws_TypeError (v : value) (e : exn) :
  to_string v = Throw e -> e = TypeError not_primitive.
Proof.
  revert v e. fix IH 1. intros v e. destruct v as [| |b|r|t|items|fields]; cbn;
    try discriminate.
  - destruct b; discriminate.
  - induction items as [|x rest IHrest]; [discriminate|].
    assert (forall e', match x with
                       | VUndefined | VNull => Ok ""%string
                       | _ => to_string x
                       end = Throw e' -> e' = TypeError not_primitive) as Hx.
    { pose proof (IH x) as Hx. intros e'. destruct x; try discriminate; apply Hx. }
    destruct rest as [|y rest]; [apply Hx|].
    destruct (match x with VUndefined | VNull => Ok ""%string | _ => to_string x end)
      as [s1|e1] eqn:E1; cbn.
    + intros H. apply IHrest. revert H. cbn.
      match goal with
      | |- context [bind ?j _] => destruct j as [s2|e2]; cbn; [discriminate|]
      end.
      exact id.
    + intros [= <-]. now apply Hx.
  - destruct (has_field "toString" fields); [|discriminate]. now intros [= <-].
Qed.

(** X30: an [ApiError] raised by [request] always reports the response it
    came from: the response was not a 2xx one and the error's status is the
    response's HTTP status (decoding a body raises no [ApiError] of its
    own). *)
Theorem api_error_carries_status (fetch : Api.network) (endpoint : string)
    (opts : Api.options) (m : string) (st : Z) :
  (forall status e m' st',
     fetch (Api.API_BASE ++ endpoint) opts = Api.Response status (Throw e) ->
     e <> ApiError m' st') ->
  Api.request fetch endpoint opts = Throw (ApiError m st) ->
  exists json,
    fetch (Api.API_BASE ++ endpoint) opts = Api.Response st json /\
    Api.ok st = false.
Proof.
  intros Hdec. unfold Api.request.
  destruct (fetch _ _) as [msg|status json] eqn:Hf; [discriminate|].
  destruct (Z.eqb_spec status 401) as [->|Hs].
  - intros [= <- <-]. now exists json.
  - destruct json as [d|e]; cbn.
    + destruct (Api.ok status) eqn:Hok; cbn; [discriminate|].
      destruct (get d "error") as [err|e] eqn:Hg; cbn.
      * unfold Api.new_ApiError. destruct (to_string _) as [txt|e] eqn:Ht; cbn.
        -- intros [= <- <-]. eauto.
        -- apply to_string_throws_TypeError in Ht as ->. discriminate.
      * apply get_throws_TypeError in Hg as [msg ->]. discriminate.
    + intros [= ->]. now destruct (Hdec status _ m st eq_refl).
Qed.

Lemma api_error_carries_status_witness :
  exists json,
    answers 403 (VObj [("error", VStr "locked out")]) (Api.API_BASE ++ "/login")
      (Api.credentials "secret") = Api.Response 403 json /\
    Api.ok 403 = false.
Proof.
  apply (api_error_carries_status (answers 403 (VObj [("error", VStr "locked out")]))
           "/login" (Api.credentials "secret") "locked out" 403).
  - intros status e m' st' H. discriminate.
  - reflexivity.
Defined.

(** ** Session gate *)

Section GateFacts.
Import Auth.
Variable fetch : Api.network.

(** A value that yields one property yields any other. *)
Lemma get_Ok_any (d a : value) (k k' : string) :
  get d k = Ok a -> exists b, get d k' = Ok b.
Proof. destruct d; cbn; intros H; try discriminate; eauto. Qed.

(** The state a check leaves, by what it read. *)
Lemma checkAuth_spec (s : State) :
  checkAuth fetch s =
    match check_answer fetch with
    | Some (a, sn) =>
        {| user := if truthy a then Some {| authenticated := true |} else None;
           loading := false; setupNeeded := sn |}
    | None => setLoading false (setUser None s)
    end.
Proof.
  unfold checkAuth, checkAuth_try, check_answer.
  destruct (Api.checkAuth fetch) as [d|e]; [|reflexivity].
  destruct (get d "authenticated") as [a|e] eqn:Ha; [|reflexivity].
  destruct (get_Ok_any d a _ "setup_needed" Ha) as [sn ->].
  now destruct (truthy a).
Qed.

End GateFacts.

(** X4: a session check that fails (rejected fetch, non-2xx answer,
    undecodable or [null] body) fails closed: the user is cleared, loading
    ends, and the setup flag keeps its earlier value; the gate is then
    SetupRequired if that flag was truthy and Unauthenticated otherwise,
    never Authenticated. *)
Theorem checkAuth_failure_fails_closed (fetch : Api.network) (s : Auth.State) :
  (exists e, Api.checkAuth fetch = Throw e) \/ Api.checkAuth fetch = Ok VNull ->
  Auth.checkAuth fetch s = Auth.setLoading false (Auth.setUser None s) /\
  Auth.phase (Auth.checkAuth fetch s)
    = (if truthy (Auth.setupNeeded s) then Auth.SetupRequired else Auth.Unauthenticated).
Proof.
  intros H. rewrite checkAuth_spec.
  assert (check_answer fetch = None) as ->.
  { unfold check_answer. now destruct H as [[e ->] | ->]. }
  split; [reflexivity|]. unfold Auth.phase. cbn. now destruct (truthy _).
Qed.

Lemma checkAuth_failure_fails_closed_witness :
  Auth.checkAuth offline signed_in = signed_out /\
  Auth.phase (Auth.checkAuth offline signed_in) = Auth.Unauthenticated.
Proof.
  apply (checkAuth_failure_fails_closed offline signed_in).
  left. eexists. reflexivity.
Defined.

(** X5: after a session check the gate is Authenticated exactly when the
    server answered the check with a 2xx status and a body whose
    [authenticated] is truthy and whose [setup_needed] is falsy; the state
    the gate had before plays no part. *)
Theorem authenticated_iff_server_confirms (fetch : Api.network) (s : Auth.State) :
  Auth.phase (Auth.checkAuth fetch s) = Auth.Authenticated <->
  exists status data a sn,
    fetch "/api/check-auth" {| Api.method := "GET"; Api.body := None |}
      = Api.Response status (Ok data) /\
    Api.ok status = true /\
    get data "authenticated" = Ok a /\ truthy a = true /\
    get data "setup_needed" = Ok sn /\ truthy sn = false.
Proof.
  rewrite checkAuth_spec. unfold check_answer. split.
  - destruct (Api.checkAuth fetch) as [d|e] eqn:H.
    + destruct (get d "authenticated") as [a|e] eqn:Ha,
               (get d "setup_needed") as [sn|e'] eqn:Hsn;
        unfold Auth.phase; cbn; try (destruct (truthy _); discriminate).
      apply request_ok_inv in H as (status & Hf & Hok).
      destruct (truthy sn) eqn:Htsn; [discriminate|].
      destruct (truthy a) eqn:Hta; [|discriminate].
      intros _. exists status, d, a, sn. now repeat split.
    + unfold Auth.phase; cbn. destruct (truthy _); discriminate.
  - intros (status & d & a & sn & Hf & Hok & Ha & Hta & Hsn & Htsn).
    assert (Api.checkAuth fetch = Ok d) as -> by (eapply request_ok; eauto).
    rewrite Ha, Hsn. unfold Auth.phase. cbn. now rewrite Htsn, Hta.
Qed.

(** X6: repeating the session check against the same answers changes
    nothing: the state after one check is a fixed point of the check. *)
Theorem checkAuth_idempotent (fetch : Api.network) (s : Auth.State) :
  Auth.checkAuth fetch (Auth.checkAuth fetch s) = Auth.checkAuth fetch s.
Proof.
  rewrite !checkAuth_spec. now destruct (check_answer fetch) as [[a sn]|].
Qed.

(** ** Login form *)

(** X7: every submission of the form ends in one of two ways, and never
    throws. Either it navigates to [/], the error stays cleared and the gate
    holds the outcome of a fresh session check; or it does not navigate, the
    gate is untouched and a non-empty error is shown: the mismatch text when
    the setup passwords differ, otherwise the message of the error the
    credential request threw, or [Failed to authenticate] when that message
    is empty. The two password fields are never changed. *)
Theorem handleSubmit_outcome (m : App.mode) (fetch : Api.network)
    (s : Auth.State) (f : LoginPage.Form) :
  let '(s', f', nav) := LoginPage.handleSubmit m fetch s f in
  LoginPage.password f' = LoginPage.password f /\
  LoginPage.confirm f' = LoginPage.confirm f /\
  ((nav = Some "/" /\ LoginPage.error f' = "" /\ s' = Auth.checkAuth fetch s) \/
   (nav = None /\ s' = s /\ LoginPage.error f' <> "" /\
    ((m = App.ModeSetup /\ LoginPage.password f <> LoginPage.confirm f /\
      LoginPage.error f' = "Passwords do not match") \/
     (exists e,
        Api.request fetch (submit_endpoint m) (Api.credentials (LoginPage.password f))
          = Throw e /\
        LoginPage.error f'
          = if String.eqb (message e) "" then "Failed to authenticate" else message e)))).
Proof.
  unfold LoginPage.handleSubmit. destruct m; cbn.
  - unfold Auth.login, Api.login. destruct (Api.request _ _ _) as [d|e]; cbn.
    + repeat split. now left.
    + repeat split. right. repeat split.
      * destruct (String.eqb_spec (message e) ""); [discriminate | assumption].
      * right. now exists e.
  - destruct (String.eqb_spec (LoginPage.password f) (LoginPage.confirm f)) as [Heq|Hne]; cbn.
    + unfold Auth.setup, Api.setup. destruct (Api.request _ _ _) as [d|e]; cbn.
      * repeat split. now left.
      * repeat split. right. repeat split.
        -- destruct (String.eqb_spec (message e) ""); [discriminate | assumption].
        -- right. now exists e.
    + repeat split. right. repeat split; [discriminate|]. now left.
Qed.

(** X8: the form navigates to [/] exactly when the passwords agree (in
    setup mode) and the server answered the credential request with a 2xx
    status and a body that decodes; what the session check that follows
    finds makes no difference to the navigation. *)
Theorem handleSubmit_navigates_iff_accepted (m : App.mode) (fetch : Api.network)
    (s : Auth.State) (f : LoginPage.Form) :
  (LoginPage.handleSubmit m fetch s f).2 = Some "/" <->
  (m = App.ModeSetup -> LoginPage.password f = LoginPage.confirm f) /\
  exists status d,
    fetch (Api.API_BASE ++ submit_endpoint m) (Api.credentials (LoginPage.password f))
      = Api.Response status (Ok d) /\
    Api.ok status = true.
Proof.
  assert (forall r : result value,
            (exists d, r = Ok d) \/ (exists e, r = Throw e)) as Hcases.
  { intros [d|e]; eauto. }
  unfold LoginPage.handleSubmit. split.
  - destruct m; cbn.
    + unfold Auth.login, Api.login.
      destruct (Api.request _ _ _) as [d|e] eqn:Hr; cbn; [|discriminate].
      intros _. split; [discriminate|].
      apply request_ok_inv in Hr as (status & Hf & Hok). eauto.
    + destruct (String.eqb_spec (LoginPage.password f) (LoginPage.confirm f)) as [Heq|Hne];
        cbn; [|discriminate].
      unfold Auth.setup, Api.setup.
      destruct (Api.request _ _ _) as [d|e] eqn:Hr; cbn; [|discriminate].
      intros _. split; [easy|].
      apply request_ok_inv in Hr as (status & Hf & Hok). eauto.
  - intros [Hc (status & d & Hf & Hok)].
    pose proof (request_ok fetch _ _ status d Hf Hok) as Hr.
    destruct m; cbn in *.
    + unfold Auth.login, Api.login. now rewrite Hr.
    + rewrite (Hc eq_refl), String.eqb_refl. cbn.
      unfold Auth.setup, Api.setup. rewrite <- (Hc eq_refl). now rewrite Hr.
Qed.

(** X9: when the server accepts the login but the session check that
    follows fails, with no setup pending, the form still navigates to [/]
    with no error shown, and [/] leads straight back to the login form. *)
Theorem accepted_login_unconfirmed (fetch : Api.network) (s : Auth.State)
    (f : LoginPage.Form) (d : value) (e : exn) :
  Api.login fetch (LoginPage.password f) = Ok d ->
  Api.checkAuth fetch = Throw e ->
  truthy (Auth.setupNeeded s) = false ->
  let '(s', f', nav) := LoginPage.handleSubmit App.ModeLogin fetch s f in
  nav = Some "/" /\ LoginPage.error f' = "" /\
  Auth.phase s' = Auth.Unauthenticated /\
  App.settle 2 s' "/" = Some (App.Login App.ModeLogin).
Proof.
  intros Hl Hc Hs. unfold LoginPage.handleSubmit. cbn.
  unfold Auth.login. rewrite Hl. cbn.
  rewrite checkAuth_spec. unfold check_answer. rewrite Hc.
  repeat split.
  - unfold Auth.phase. cbn. now rewrite Hs.
  - unfold App.settle, App.render. cbn. unfold App.PrivateRoute. cbn. rewrite Hs. cbn.
    unfold App.PublicRoute. cbn. now rewrite ?Hs.
Qed.

Lemma accepted_login_unconfirmed_witness :
  LoginPage.handleSubmit App.ModeLogin check_unreachable signed_out (blank "secret")
    = (signed_out, blank "secret", Some "/") /\
  App.settle 2 signed_out "/" = Some (App.Login App.ModeLogin).
Proof.
  pose proof (accepted_login_unconfirmed check_unreachable signed_out (blank "secret")
                (VObj [("success", VBool true)]) (TypeError "Failed to fetch")
                eq_refl eq_refl eq_refl) as H.
  cbn in H. split; [reflexivity | apply H].
Defined.

(** ** Route guards *)

Section GuardFacts.
Import App.



(** Splits on which listed route, if any, [path] matches; the gate's cells
    are variables. *)
Ltac by_routes path :=
  route_cases path; unfold PublicRoute, PrivateRoute; cbn.


(** With fuel to spare the redirections end where two hops end. *)
Lemma settle_fuel (n : nat) (s : Auth.State) (path : string) :
  settle (2 + n) s path = settle 2 s path.
Proof.
  destruct s as [u l sn]. cbn [Nat.add].
  by_routes path;
    destruct l, (truthy sn) eqn:Ht, u; cbn; rewrite ?Ht; cbn; try reflexivity;
    destruct n; cbn; rewrite ?Ht; reflexivity.
Qed.






(** X13: redirections never loop: from any path and gate state they come
    to rest on an element that is not a redirection within two hops, and
    more fuel changes nothing. *)
Theorem redirects_settle (fuel : nat) (s : Auth.State) (path : string) :
  (2 <= fuel)%nat ->
  settle fuel s path = settle 2 s path /\
  exists el, settle fuel s path = Some el /\ forall to, el <> Navigate to.
Proof.
  intros H. replace fuel with (2 + (fuel - 2))%nat by lia.
  rewrite settle_fuel. split; [reflexivity | apply settle_total].
Qed.

Lemma redirects_settle_witness :
  settle 5 signed_out "/nowhere" = settle 2 signed_out "/nowhere" /\
  exists el, settle 5 signed_out "/nowhere" = Some el /\ forall to, el <> Navigate to.
Proof.
  apply (redirects_settle 5 signed_out "/nowhere"). lia.
Defined.



End GuardFacts.

(** ** Chat console *)

Section ConsoleFacts.
Variable loc : Location.

Lemma rev_app_empty (s1 s2 : string) :
  String.rev_app s1 s2 = "" -> s1 = "" /\ s2 = "".
Proof.
  revert s2. induction s1 as [|a s1 IH]; intros s2 H; cbn in H; [easy|].
  apply IH in H as [_ H]. discriminate.
Qed.

Lemma all_space_rev_app (s1 s2 : string) :
  all_space (String.rev_app s1 s2) = all_space s1 && all_space s2.
Proof.
  revert s2. unfold all_space. induction s1 as [|a s1 IH]; intros s2; cbn; [easy|].
  rewrite IH. cbn. destruct (is_space a), (forallb _ (list_ascii_of_string s1)); cbn;
    reflexivity.
Qed.

Lemma trim_start_empty_iff (i : string) :
  trim_start i = "" <-> all_space i = true.
Proof.
  unfold all_space. induction i as [|a i IH]; cbn; [easy|].
  destruct (is_space a); cbn; [exact IH | easy].
Qed.

Lemma trim_start_idem (i : string) : trim_start (trim_start i) = trim_start i.
Proof.
  induction i as [|a i IH]; cbn; [easy|].
  destruct (is_space a) eqn:E; [exact IH | cbn; now rewrite E].
Qed.

(** [trim] leaves nothing exactly of a text of white space only. *)
Lemma trim_empty_iff (i : string) : trim i = "" <-> all_space i = true.
Proof.
  unfold trim, String.rev. split.
  - intros H. apply rev_app_empty in H as [H _].
    apply trim_start_empty_iff in H. rewrite all_space_rev_app in H.
    apply andb_prop in H as [H _]. apply trim_start_empty_iff in H.
    rewrite trim_start_idem in H. now apply trim_start_empty_iff.
  - intros H. apply trim_start_empty_iff in H. now rewrite H.
Qed.

Lemma sockets_setMessages f (s : State) : sockets (setMessages f s) = sockets s.
Proof. unfold setMessages. now destruct (is_mounted s). Qed.

(** The two ways [sendMessage] can go. *)
Lemma sendMessage_cases (s : State) :
  sendMessage s = (s, Ok tt) \/
  exists id t,
    wsRef s = Some id /\ ready id s = Some 1 /\ t = trim (input s) /\ t <> "" /\
    sendMessage s
      = (setInput ""
           {| messages := messages (setMessages (fun prev => (prev ++ [user_entry t])%list) s);
              input := input s; status := status s; wsRef := wsRef s;
              sockets := sockets s; timers := timers s;
              outbox := (outbox s ++ [(id, outbound t)])%list; life := life s |},
         Ok tt).
Proof.
  unfold sendMessage. destruct (String.eqb_spec (trim (input s)) "") as [|Ht]; [now left|].
  destruct (wsRef s) as [id|] eqn:Hw; [|now left].
  destruct (bool_decide_reflect (ready id s = Some 1)) as [Hr|]; cbn; [|now left].
  right. exists id, (trim (input s)). repeat split; try assumption.
  unfold ws_send. rewrite sockets_setMessages.
  unfold ready in Hr. destruct (sockets s !! id) as [sock|]; [|discriminate].
  cbn in Hr. injection Hr as ->. cbn.
  unfold setMessages. destruct (is_mounted s); cbn; now rewrite ?Hw.
Qed.

End ConsoleFacts.

(** X15: [sendMessage] never throws, in any state: its guard keeps
    [send] away from a socket that is still connecting, the one case in
    which [WebSocket.send] raises. *)
Theorem sendMessage_never_throws (s : State) : (sendMessage s).2 = Ok tt.
Proof.
  destruct (sendMessage_cases s) as [-> | (id & t & _ & _ & _ & _ & ->)]; reflexivity.
Qed.

(** X16: with the console mounted and the transport open, a submission is
    dropped, leaving log, input and outbox as they were, exactly when the
    input consists of white space only. *)
Theorem submission_dropped_iff_blank (s : State) :
  is_mounted s = true ->
  transport_open s = true ->
  sendMessage s = (s, Ok tt) <-> all_space (input s) = true.
Proof.
  intros Hm Ho. rewrite <- trim_empty_iff.
  apply transport_open_spec in Ho as (id & Hw & Hr). split.
  - intros H. destruct (String.eqb_spec (trim (input s)) "") as [|Ht]; [assumption|].
    rewrite (sendMessage_open s id Hm Ht Hw Hr) in H.
    apply (f_equal (fun r => length (outbox r.1))) in H. cbn in H.
    rewrite length_app in H. cbn in H. lia.
  - intros H. unfold sendMessage. now rewrite H.
Qed.

Lemma submission_dropped_iff_blank_witness :
  sendMessage typed_while_open = (typed_while_open, Ok tt)
  <-> all_space (input typed_while_open) = true.
Proof.
  apply (submission_dropped_iff_blank typed_while_open).
  - reflexivity.
  - reflexivity.
Defined.

(** What [onmessage] does, by the shape of the parsed frame. *)
Lemma onmessage_spec (data : result value) (s : State) :
  onmessage data s =
    match data with
    | Ok (VObj fs) =>
        if truthy (default VUndefined (lookup_field "content" fs))
        then setMessages (fun prev => (prev ++ [inbound_entry fs])%list) s
        else s
    | _ => s
    end.
Proof.
  destruct data as [d|e]; [|reflexivity].
  destruct d; try reflexivity.
  destruct (truthy (default VUndefined (lookup_field "content" fields))) eqn:H.
  - now apply onmessage_content.
  - now apply onmessage_no_content.
Qed.

(** X17: an inbound frame touches nothing but the log, and the log only
    when the frame's text parses to an object whose [content] is truthy (and
    the console is mounted): then the entry
    [{text: content, sender: sender || "bot"}] is appended. Text that does
    not parse, [null], arrays, strings and numbers are dropped without
    effect. *)
Theorem inbound_frame_effect (data : result value) (s : State) :
  let s' := onmessage data s in
  input s' = input s /\ status s' = status s /\ wsRef s' = wsRef s /\
  sockets s' = sockets s /\ timers s' = timers s /\ outbox s' = outbox s /\
  life s' = life s /\
  messages s' =
    match data with
    | Ok (VObj fs) =>
        if truthy (default VUndefined (lookup_field "content" fs)) && is_mounted s
        then (messages s ++ [inbound_entry fs])%list
        else messages s
    | _ => messages s
    end.
Proof.
  cbn. rewrite onmessage_spec.
  destruct data as [d|e]; [|now repeat split].
  destruct d; try now repeat split.
  destruct (truthy (default VUndefined (lookup_field "content" fields)));
    [|now repeat split].
  unfold setMessages. destruct (is_mounted s); now repeat split.
Qed.

(** ** Chat console: what holds along every run *)

Section RunFacts.
Variable loc : Location.

Lemma run_invariant (P : State -> Prop) :
  (forall e s, P s -> P (step loc e s)) ->
  forall es s, P s -> P (run loc es s).
Proof.
  intros Hstep es. induction es as [|e es IH]; intros s H; cbn; [assumption|].
  apply IH, Hstep, H.
Qed.

Lemma synced_linked (s : State) : synced s -> linked s.
Proof.
  unfold synced, linked. destruct (life s).
  - now intros (? & ? & ? & _).
  - intros (olds & last & ? & ? & ? & ? & _). now exists olds, last.
  - intros (olds & last & ? & ? & ? & ? & _). now exists olds, last.
Qed.

(** Among sockets that are closed but for the last, a socket that is not
    closed is the last. *)
Lemma live_is_last (olds : list Socket) (last k : Socket) (id : nat) :
  Forall (fun k => closed k = true) olds ->
  (olds ++ [last])%list !! id = Some k ->
  closed k = false ->
  id = length olds /\ k = last.
Proof.
  intros Ho Hl Hk. destruct (decide (id < length olds)%nat) as [Hlt|Hge].
  - rewrite lookup_app_l in Hl by assumption.
    rewrite Forall_lookup in Ho. rewrite (Ho _ _ Hl) in Hk. discriminate.
  - rewrite lookup_app_r in Hl by lia.
    destruct (id - length olds)%nat as [|n] eqn:E; cbn in Hl; [|discriminate].
    injection Hl as <-. split; [lia | reflexivity].
Qed.

Lemma lookup_last (olds : list Socket) (last : Socket) :
  (olds ++ [last])%list !! length olds = Some last.
Proof. rewrite lookup_app_r by lia. now rewrite Nat.sub_diag. Qed.

Lemma insert_last (olds : list Socket) (last k : Socket) :
  <[length olds := k]> (olds ++ [last])%list = (olds ++ [k])%list.
Proof.
  replace (length olds) with (length olds + 0)%nat at 1 by lia.
  now rewrite insert_app_r.
Qed.

(** The state of the last socket changes to [rs]; [st] is what the status
    line then says if the console is mounted. *)
Lemma synced_transition (s : State) (id : nat) (r rs : Z) (st : string) :
  synced s ->
  ready id s = Some r ->
  r <> 3 ->
  (st = "Connected" <-> rs = 1 \/ rs = 2) ->
  synced (with_timers (timers s ++ (if rs =? 3 then [2000] else []))%list
            (setStatus st (set_readyState id rs s))).
Proof.
  intros H Hr Hn Hst. destruct s as [msgs inp sts w socks ts ob lf].
  unfold synced, ready, set_readyState, setStatus, is_mounted in *. cbn in *.
  destruct (socks !! id) as [k|] eqn:Hk; [|discriminate]. cbn in Hr. injection Hr as Hr.
  assert (closed k = false) as Hc by (unfold closed; lia).
  destruct lf; cbn.
  - destruct H as (-> & _). discriminate.
  - destruct H as (olds & last & -> & -> & Ho & -> & Hs).
    destruct (live_is_last olds last k id Ho Hk Hc) as [-> ->]. rewrite Hc.
    exists olds, {| url := url last; readyState := rs |}. cbn.
    rewrite insert_last. repeat split; try assumption; try apply Hst;
      try (unfold closed; cbn; now destruct (rs =? 3)).
  - destruct H as (olds & last & -> & -> & Ho & -> & Hs).
    destruct (live_is_last olds last k id Ho Hk Hc) as [-> ->]. rewrite Hc.
    exists olds, {| url := url last; readyState := rs |}. cbn.
    rewrite insert_last. repeat split; try assumption; try discriminate;
      try (unfold closed; cbn; now destruct (rs =? 3)).
Qed.

(** A change of log, input or outbox alone. *)
Lemma synced_frame (s s' : State) :
  status s' = status s -> wsRef s' = wsRef s -> sockets s' = sockets s ->
  timers s' = timers s -> life s' = life s ->
  synced s -> synced s'.
Proof.
  unfold synced. intros -> -> -> -> ->. exact id.
Qed.

(** Reads a cell off a state built by setters. *)
Ltac cells :=
  unfold onopen, onclose, setStatus, setInput, setMessages, set_readyState,
    with_timers, with_sockets, with_life, is_mounted;
  repeat match goal with
         | |- context [match ?x with _ => _ end] => destruct x
         end;
  cbn; rewrite ?app_nil_r; reflexivity.

Lemma step_synced (e : event) (s : State) : synced s -> synced (step loc e s).
Proof.
  intros H. destruct e; cbn.
  - (* Mount *)
    destruct (life s) eqn:L; try assumption.
    unfold synced in *. rewrite L in H. destruct H as (Hs & Ht & Hw & Hst). cbn.
    exists [], {| url := ws_url loc; readyState := 0 |}. cbn.
    rewrite Hs, Ht, Hst. repeat split; try discriminate;
      try (intros [|]; discriminate). constructor.
  - (* Unmount *)
    destruct s as [msgs inp sts w socks ts ob lf]. unfold synced in *. cbn in *.
    destruct lf; try assumption.
    destruct H as (olds & last & -> & -> & Ho & -> & Hst).
    unfold cleanup, ws_close, set_readyState. cbn.
    rewrite !lookup_last.
    destruct ((readyState last =? 0) || (readyState last =? 1)) eqn:E; cbn.
    + rewrite insert_last.
      exists olds, {| url := url last; readyState := 2 |}. cbn.
      repeat split; try assumption; try discriminate.
      unfold closed. cbn.
      destruct (readyState last =? 3) eqn:E3; [lia | reflexivity].
    + exists olds, last. repeat split; try assumption; discriminate.
  - (* Open *)
    destruct (ready id s) as [r|] eqn:Hr; [|assumption].
    destruct (Z.eq_dec r 0) as [->|Hn].
    + pose proof (synced_transition s id 0 1 "Connected" H Hr ltac:(lia)
                    ltac:(split; [now left | reflexivity])) as H'.
      cbn in H'. revert H'. apply synced_frame; cells.
    + destruct r as [|[]|]; try assumption; congruence.
  - (* Closing *)
    destruct (ready id s) as [r|] eqn:Hr; [|assumption].
    destruct (Z.eq_dec r 1) as [->|Hn].
    + destruct s as [msgs inp sts w socks ts ob lf].
      unfold synced, ready, set_readyState in *. cbn in *.
      destruct (socks !! id) as [k|] eqn:Hk; [|discriminate]. cbn in Hr. injection Hr as Hr.
      assert (closed k = false) as Hc by (unfold closed; lia).
      destruct lf; cbn.
      * destruct H as (-> & _). discriminate.
      * destruct H as (olds & last & -> & -> & Ho & -> & Hs).
        destruct (live_is_last olds last k id Ho Hk Hc) as [-> ->]. rewrite Hc.
        exists olds, {| url := url last; readyState := 2 |}. cbn.
        rewrite insert_last. repeat split; try assumption; try reflexivity.
        -- now right.
        -- intros _. apply Hs; [reflexivity | now left].
      * destruct H as (olds & last & -> & -> & Ho & -> & Hs).
        destruct (live_is_last olds last k id Ho Hk Hc) as [-> ->]. rewrite Hc.
        exists olds, {| url := url last; readyState := 2 |}. cbn.
        rewrite insert_last. repeat split; try assumption; try reflexivity;
          discriminate.
    + destruct r as [|[]|]; try assumption; congruence.
  - (* Close *)
    destruct (ready id s) as [r|] eqn:Hr; [|assumption].
    destruct (Z.eq_dec r 3) as [->|Hn]; [assumption|].
    pose proof (synced_transition s id r 3 "Disconnected" H Hr Hn
                  ltac:(split; [discriminate | intros [|]; discriminate])) as H'.
    assert (synced (onclose (set_readyState id 3 s))) as Hc.
    { cbn in H'. revert H'. apply synced_frame; cells. }
    destruct r as [|[[]|[]|]|]; try assumption; congruence.
  - (* Message *)
    destruct (ready id s) as [[|[]|]|]; try assumption.
    rewrite onmessage_spec.
    destruct data as [[]|]; try assumption.
    destruct (truthy _); [|assumption].
    revert H. apply synced_frame; cells.
  - (* Timer *)
    destruct (timers s) as [|t rest] eqn:Ht; [assumption|].
    unfold synced in *. cbn. destruct (life s) eqn:L.
    + destruct H as (_ & H & _). congruence.
    + destruct H as (olds & last & Hs & Hw & Ho & Ht' & Hst).
      rewrite Ht in Ht'. destruct (closed last) eqn:Hc; [|discriminate].
      injection Ht' as -> ->.
      exists (olds ++ [last])%list, {| url := ws_url loc; readyState := 0 |}. cbn.
      rewrite Hs. repeat split; try reflexivity.
      * apply Forall_app. split; [assumption|]. now constructor.
      * intros Hc'. apply Hst in Hc'; [|reflexivity]. unfold closed in Hc.
        destruct Hc'; lia.
      * intros [|]; discriminate.
    + destruct H as (olds & last & Hs & Hw & Ho & Ht' & Hst).
      rewrite Ht in Ht'. destruct (closed last) eqn:Hc; [|discriminate].
      injection Ht' as -> ->.
      exists (olds ++ [last])%list, {| url := ws_url loc; readyState := 0 |}. cbn.
      rewrite Hs. repeat split; try reflexivity; try discriminate.
      apply Forall_app. split; [assumption|]. now constructor.
  - (* Input *)
    revert H. apply synced_frame; cells.
  - (* Submit *)
    destruct (is_mounted s); [|assumption].
    destruct (sendMessage_cases s) as [-> | (id & t & _ & _ & _ & _ & ->)]; [assumption|].
    revert H. apply synced_frame; cells.
Qed.

Lemma initial_synced : synced initial.
Proof. unfold synced. cbn. repeat split. Qed.

Lemma run_synced (es : list event) : synced (run loc es initial).
Proof. apply run_invariant; [apply step_synced | apply initial_synced]. Qed.

(** What one event does to the log and to the frames sent: nothing, an
    inbound entry, or a submission that is both logged and sent. *)
Lemma step_log (e : event) (s : State) :
  (messages (step loc e s) = messages s /\ outbox (step loc e s) = outbox s) \/
  (exists fs,
     truthy (default VUndefined (lookup_field "content" fs)) = true /\
     messages (step loc e s) = (messages s ++ [inbound_entry fs])%list /\
     outbox (step loc e s) = outbox s) \/
  (exists id t,
     t <> "" /\
     messages (step loc e s) = (messages s ++ [user_entry t])%list /\
     outbox (step loc e s) = (outbox s ++ [(id, outbound t)])%list).
Proof.
  destruct e; cbn.
  - left. destruct (life s); split; reflexivity.
  - left. unfold cleanup, ws_close. split; cells.
  - left. split; cells.
  - left. split; cells.
  - left. split; cells.
  - destruct (ready id s) as [[|[]|]|]; try (left; split; reflexivity).
    rewrite onmessage_spec.
    destruct data as [[]|]; try (left; split; reflexivity).
    destruct (truthy _) eqn:Ht; [|left; split; reflexivity].
    unfold setMessages. destruct (is_mounted s); [|left; split; reflexivity].
    right. left. exists fields. now repeat split.
  - left. destruct (timers s); split; reflexivity.
  - left. split; cells.
  - destruct (is_mounted s) eqn:Hm; [|left; split; reflexivity].
    destruct (sendMessage_cases s) as [-> | (id & t & _ & _ & _ & Ht & ->)];
      [left; split; reflexivity|].
    right. right. exists id, t. split; [assumption|].
    unfold setInput, setMessages, is_mounted in *. cbn. rewrite Hm.
    destruct (life s); try discriminate. now split.
Qed.

Lemma truthy_inbound_entry (fs : list (string * value)) :
  truthy (default VUndefined (lookup_field "content" fs)) = true ->
  truthy_entry (inbound_entry fs) = true.
Proof.
  intros H. unfold truthy_entry, inbound_entry, or_else. cbn. rewrite H. cbn.
  now destruct (truthy (default VUndefined (lookup_field "sender" fs))) eqn:E.
Qed.

Lemma truthy_user_entry (t : string) : t <> "" -> truthy_entry (user_entry t) = true.
Proof. intros H. unfold truthy_entry. cbn. apply String.eqb_neq in H. now rewrite H. Qed.

Lemma step_urls (e : event) (s : State) :
  Forall (fun k => url k = ws_url loc) (sockets s) ->
  Forall (fun k => url k = ws_url loc) (sockets (step loc e s)).
Proof.
  assert (forall id rs s, Forall (fun k => url k = ws_url loc) (sockets s) ->
            Forall (fun k => url k = ws_url loc) (sockets (set_readyState id rs s))) as Hset.
  { intros id rs s0 H. unfold set_readyState.
    destruct (sockets s0 !! id) as [k|] eqn:Hk; [|assumption]. cbn.
    apply Forall_insert; [assumption|]. cbn.
    rewrite Forall_lookup in H. exact (H _ _ Hk). }
  assert (forall s, Forall (fun k => url k = ws_url loc) (sockets s) ->
            Forall (fun k => url k = ws_url loc) (sockets (connect loc s))) as Hcon.
  { intros s0 H. cbn. apply Forall_app. split; [assumption|]. now constructor. }
  intros H. destruct e; cbn.
  - destruct (life s); try assumption. now apply Hcon.
  - destruct (life s); try assumption. unfold cleanup, ws_close. cbn.
    destruct (wsRef s) as [id|]; [|assumption].
    destruct (sockets s !! id); [|assumption].
    destruct (_ || _); [|assumption]. now apply (Hset id 2 (with_life Unmounted s)).
  - destruct (ready id s) as [[|[]|]|]; try assumption.
    unfold onopen. replace (sockets (setStatus _ _)) with (sockets (set_readyState id 1 s))
      by cells. now apply Hset.
  - destruct (ready id s) as [[|[]|]|]; try assumption. now apply Hset.
  - assert (Forall (fun k => url k = ws_url loc)
              (sockets (onclose (set_readyState id 3 s)))) as Hc.
    { replace (sockets (onclose _)) with (sockets (set_readyState id 3 s)) by cells.
      now apply Hset. }
    destruct (ready id s) as [[|[[]|[]|]|]|]; assumption.
  - destruct (ready id s) as [[|[]|]|]; try assumption.
    rewrite onmessage_spec. destruct data as [[]|]; try assumption.
    destruct (truthy _); [|assumption]. now rewrite sockets_setMessages.
  - destruct (timers s); [assumption|]. now apply (Hcon (with_timers _ s)).
  - replace (sockets (setInput i s)) with (sockets s) by cells. assumption.
  - destruct (is_mounted s); [|assumption].
    destruct (sendMessage_cases s) as [-> | (id & t & _ & _ & _ & _ & ->)]; [assumption|].
    cbn. match goal with |- Forall _ (sockets ?x) => replace (sockets x) with (sockets s) by cells end.
    assumption.
Qed.

End RunFacts.

(** X18: every entry of the log has a truthy text and a truthy sender: if
    that holds of the log, it holds after any run of events. An inbound
    frame is logged only with a truthy [content], under its own sender or
    [bot]; a submission is logged only with a text that is not empty, under
    [user]. *)
Theorem log_entries_truthy (loc : Location) (es : list event) (s : State) :
  Forall (fun e => truthy_entry e = true) (messages s) ->
  Forall (fun e => truthy_entry e = true) (messages (run loc es s)).
Proof.
  revert s.
  apply (run_invariant loc (fun s => Forall (fun e => truthy_entry e = true) (messages s))).
  intros e s H.
  destruct (step_log loc e s)
    as [[-> _] | [(fs & Hc & -> & _) | (id & t & Ht & -> & _)]]; [assumption| |].
  - apply Forall_app. split; [assumption|]. constructor; [|constructor].
    now apply truthy_inbound_entry.
  - apply Forall_app. split; [assumption|]. constructor; [|constructor].
    now apply truthy_user_entry.
Qed.

Lemma log_entries_truthy_witness :
  Forall (fun e => truthy_entry e = true)
    (messages (run admin_host
                 [Mount; Open 0%nat; Message 0%nat (frame "A"); Input "C"; Submit]
                 initial)).
Proof.
  apply (log_entries_truthy admin_host
           [Mount; Open 0%nat; Message 0%nat (frame "A"); Input "C"; Submit] initial).
  constructor.
Defined.

(** X19: the connection bookkeeping holds after every run of events from
    the initial state: once mounted, all sockets but the last constructed
    are closed, [wsRef] names that last one, and a reconnection timer is
    pending, a single one of 2000 ms, exactly when that socket is closed
    too. So there is never more than one live socket, never a timer beside
    a live socket, and never two timers. *)
Theorem connection_bookkeeping (loc : Location) (es : list event) :
  linked (run loc es initial).
Proof.
  apply synced_linked.
  apply run_invariant; [apply step_synced | apply initial_synced].
Qed.

(** X20: on a mounted console the status line reads [Connected] exactly
    while the socket [wsRef] names is open or closing, that is, from its
    open event until its close event. So whenever the transport is open,
    and a non-blank submission would be sent, the line reads [Connected];
    the converse fails while the socket is closing: the line still reads
    [Connected] and submissions are dropped. *)
Theorem status_connected_iff_socket_up (loc : Location) (es : list event) :
  life (run loc es initial) = Mounted ->
  (status (run loc es initial) = "Connected" <->
   exists id, wsRef (run loc es initial) = Some id /\
              (ready id (run loc es initial) = Some 1 \/
               ready id (run loc es initial) = Some 2)) /\
  (transport_open (run loc es initial) = true ->
   status (run loc es initial) = "Connected") /\
  (exists es', life (run loc es' initial) = Mounted /\
               status (run loc es' initial) = "Connected" /\
               transport_open (run loc es' initial) = false).
Proof.
  intros L. pose proof (run_synced loc es) as H. unfold synced in H. rewrite L in H.
  destruct H as (olds & last & Hs & Hw & _ & _ & Hst).
  assert (forall r, ready (length olds) (run loc es initial) = Some r <-> readyState last = r)
    as Hready.
  { intros r. unfold ready. rewrite Hs, lookup_last. cbn.
    split; [now intros [= ->] | now intros ->]. }
  assert (status (run loc es initial) = "Connected" <->
          exists id, wsRef (run loc es initial) = Some id /\
                     (ready id (run loc es initial) = Some 1 \/
                      ready id (run loc es initial) = Some 2)) as Hiff.
  { rewrite (Hst eq_refl). split.
    - intros Hr. exists (length olds). split; [assumption|].
      now rewrite !Hready.
    - intros (id & Hid & Hr). rewrite Hw in Hid. injection Hid as <-.
      now rewrite !Hready in Hr. }
  split; [exact Hiff|]. split.
  - intros Ho. apply transport_open_spec in Ho as (id & Hid & Hr).
    apply Hiff. exists id. split; [assumption | now left].
  - exists [Mount; Open 0%nat; Closing 0%nat]. repeat split.
Qed.

Lemma status_connected_iff_socket_up_witness :
  status (run admin_host [Mount; Open 0%nat] initial) = "Connected" <->
  exists id, wsRef (run admin_host [Mount; Open 0%nat] initial) = Some id /\
             (ready id (run admin_host [Mount; Open 0%nat] initial) = Some 1 \/
              ready id (run admin_host [Mount; Open 0%nat] initial) = Some 2).
Proof.
  refine (proj1 (status_connected_iff_socket_up admin_host [Mount; Open 0%nat] _)).
  reflexivity.
Defined.

(** X21: every socket the console constructs, reconnections included, goes
    to the page's own host at [/ws], with the [wss:] scheme exactly when
    the page was loaded over [https:]. *)
Theorem sockets_use_page_origin (loc : Location) (es : list event) :
  Forall (fun k => url k = ws_url loc) (sockets (run loc es initial)).
Proof.
  apply (run_invariant loc (fun s => Forall (fun k => url k = ws_url loc) (sockets s))).
  - apply step_urls.
  - constructor.
Qed.

(** X22: whatever is handed to a socket is in the log: after any run of
    events from the initial state, the frames sent are
    [{type: "message", content: t}] for a list of non-empty texts [t], and
    the entries [{text: t, sender: "user"}] of those texts occur in the log
    in the same order. *)
Theorem sent_frames_are_logged (loc : Location) (es : list event) :
  exists ts : list string,
    (outbox (run loc es initial)).*2 = outbound <$> ts /\
    Forall (fun t => t <> "") ts /\
    (user_entry <$> ts) `sublist_of` messages (run loc es initial).
Proof.
  apply (run_invariant loc
           (fun s => exists ts : list string,
                       (outbox s).*2 = outbound <$> ts /\
                       Forall (fun t => t <> "") ts /\
                       (user_entry <$> ts) `sublist_of` messages s)).
  - intros e s (ts & Ho & Hne & Hsub).
    destruct (step_log loc e s)
      as [[-> ->] | [(fs & _ & -> & ->) | (id & t & Ht & -> & ->)]].
    + now exists ts.
    + exists ts. repeat split; try assumption. now apply sublist_inserts_r.
    + exists (ts ++ [t])%list. rewrite !fmap_app, Ho. cbn. repeat split.
      * apply Forall_app. split; [assumption|]. now constructor.
      * now apply sublist_app.
  - exists []. repeat split; constructor.
Qed.

(** ** System monitor *)

Section DashboardFacts.
Import DashboardPage.

Lemma dashboard_run_app (es es' : list event) (s : State) :
  run (es ++ es') s = run es' (run es s).
Proof. unfold run. apply foldl_app. Qed.

Lemma life_fetchStats_resume (a : Api.fetched) (s : State) :
  life (fetchStats_resume a s) = life s /\
  intervals (fetchStats_resume a s) = intervals s /\
  timerRef (fetchStats_resume a s) = timerRef s /\
  requests (fetchStats_resume a s) = requests s.
Proof.
  unfold fetchStats_resume, setStats.
  destruct (Api.getSystemStats _); [|easy]. now destruct (is_mounted s).
Qed.

Lemma step_polling (e : event) (s : State) : polling s -> polling (step e s).
Proof.
  unfold polling. intros H. destruct e; cbn.
  - destruct (life s) eqn:L; rewrite ?L; try assumption.
    destruct H as [Hi Ht]. cbn. rewrite Hi. now exists (created s).
  - destruct (life s) eqn:L; rewrite ?L; try assumption.
    destruct H as (id & Ht & Hi). unfold cleanup. cbn. rewrite Ht. cbn. rewrite Hi. cbn.
    now rewrite Nat.eqb_refl.
  - destruct (armed id s); assumption.
  - destruct (inflight s) as [|n]; [assumption|].
    destruct (life_fetchStats_resume a
                {| stats := stats s; error := error s; timerRef := timerRef s;
                   intervals := intervals s; created := created s;
                   requests := requests s; inflight := n; life := life s |})
      as (-> & -> & -> & _). assumption.
Qed.

Lemma run_polling (es : list event) (s : State) : polling s -> polling (run es s).
Proof.
  revert s. induction es as [|e es IH]; intros s H; cbn; [assumption|].
  apply IH, step_polling, H.
Qed.

(** Once unmounted with no interval armed, nothing moves but the answers
    still in flight draining away. *)
Lemma step_unmounted (e : event) (s : State) :
  life s = ChatPage.Unmounted -> intervals s = [] ->
  life (step e s) = ChatPage.Unmounted /\ intervals (step e s) = [] /\
  requests (step e s) = requests s /\ stats (step e s) = stats s.
Proof.
  intros L Hi. destruct e; cbn.
  - now rewrite L.
  - now rewrite L.
  - unfold armed. now rewrite Hi.
  - destruct (inflight s) as [|n]; [easy|].
    unfold fetchStats_resume, setStats, is_mounted. cbn. rewrite L.
    now destruct (Api.getSystemStats _).
Qed.

Lemma run_unmounted (es : list event) (s : State) :
  life s = ChatPage.Unmounted -> intervals s = [] ->
  requests (run es s) = requests s /\ stats (run es s) = stats s.
Proof.
  revert s. induction es as [|e es IH]; intros s L Hi; cbn; [easy|].
  destruct (step_unmounted e s L Hi) as (L' & Hi' & <- & <-). now apply IH.
Qed.

(** What an answer can do to the stats. *)
Lemma stats_step (e : event) (s : State) :
  stats (step e s) = stats s \/
  exists status d, e = Answer (Api.Response status (Ok d)) /\
                   Api.ok status = true /\ stats (step e s) = d.
Proof.
  destruct e; cbn.
  - left. now destruct (life s).
  - left. destruct (life s); try reflexivity. unfold cleanup. cbn. now destruct (timerRef s).
  - left. now destruct (armed id s).
  - destruct (inflight s) as [|n]; [now left|].
    unfold fetchStats_resume. destruct (Api.getSystemStats _) as [d|err] eqn:Hr; [|now left].
    unfold setStats, is_mounted. cbn. destruct (life s); cbn; try now left.
    right. unfold Api.getSystemStats in Hr.
    apply request_ok_inv in Hr as (status & Hf & Hok). subst a. eauto 6.
Qed.

End DashboardFacts.

(** X23: the polling stops at unmount: once the monitor is unmounted, no
    later event starts a request or changes the stats; answers still in
    flight are dropped. *)
Theorem polling_stops_at_unmount (es es' : list DashboardPage.event) :
  DashboardPage.life (DashboardPage.run es DashboardPage.initial) = ChatPage.Unmounted ->
  DashboardPage.requests (DashboardPage.run (es ++ es') DashboardPage.initial)
    = DashboardPage.requests (DashboardPage.run es DashboardPage.initial) /\
  DashboardPage.stats (DashboardPage.run (es ++ es') DashboardPage.initial)
    = DashboardPage.stats (DashboardPage.run es DashboardPage.initial).
Proof.
  intros L. rewrite dashboard_run_app.
  apply run_unmounted; [assumption|].
  pose proof (run_polling es DashboardPage.initial) as H.
  unfold polling in H. rewrite L in H. apply H. now split.
Qed.

Lemma polling_stops_at_unmount_witness :
  DashboardPage.requests
    (DashboardPage.run
       ([DashboardPage.Mount; DashboardPage.Unmount]
          ++ [DashboardPage.Tick 0; DashboardPage.Answer (Api.Response 200 (Ok (VNum "1")))])
       DashboardPage.initial)
    = DashboardPage.requests
        (DashboardPage.run [DashboardPage.Mount; DashboardPage.Unmount] DashboardPage.initial) /\
  DashboardPage.stats
    (DashboardPage.run
       ([DashboardPage.Mount; DashboardPage.Unmount]
          ++ [DashboardPage.Tick 0; DashboardPage.Answer (Api.Response 200 (Ok (VNum "1")))])
       DashboardPage.initial)
    = DashboardPage.stats
        (DashboardPage.run [DashboardPage.Mount; DashboardPage.Unmount] DashboardPage.initial).
Proof.
  apply (polling_stops_at_unmount [DashboardPage.Mount; DashboardPage.Unmount]
           [DashboardPage.Tick 0; DashboardPage.Answer (Api.Response 200 (Ok (VNum "1")))]).
  reflexivity.
Defined.

(** X24: the stats on display are never made up: after any run of events
    from the initial state they are still [null], or they are the decoded
    body of an answer with a 2xx status that occurs in the run. *)
Theorem stats_come_from_answers (es : list DashboardPage.event) :
  let s := DashboardPage.run es DashboardPage.initial in
  DashboardPage.stats s = VNull \/
  exists status,
    In (DashboardPage.Answer (Api.Response status (Ok (DashboardPage.stats s)))) es /\
    Api.ok status = true.
Proof.
  cbn. induction es as [|e es IH] using rev_ind; [now left|].
  rewrite dashboard_run_app. cbn.
  destruct (stats_step e (DashboardPage.run es DashboardPage.initial))
    as [-> | (status & d & -> & Hok & ->)].
  - destruct IH as [IH | (status & Hin & Hok)]; [now left|].
    right. exists status. split; [|assumption]. apply in_or_app. now left.
  - right. exists status. split; [|assumption]. apply in_or_app. right. now left.
Qed.

(** X25: a poll that fails never disturbs the display: over a run of events
    in which no answer has a 2xx status with a decodable body, the stats,
    and so the choice between spinner and cards, stay as they were. *)
Theorem failed_polls_keep_stats (es : list DashboardPage.event) (s : DashboardPage.State) :
  (forall a d, In (DashboardPage.Answer a) es ->
               Api.getSystemStats (fun _ _ => a) <> Ok d) ->
  DashboardPage.stats (DashboardPage.run es s) = DashboardPage.stats s /\
  DashboardPage.spinner (DashboardPage.run es s) = DashboardPage.spinner s.
Proof.
  intros H.
  assert (DashboardPage.stats (DashboardPage.run es s) = DashboardPage.stats s) as E.
  { revert s. induction es as [|e es IH]; intros s; [reflexivity|].
    change (DashboardPage.run (e :: es) s) with (DashboardPage.run es (DashboardPage.step e s)).
    rewrite IH by (intros a d Hin; apply H; now right).
    destruct (stats_step e s) as [Hs | (status & d & -> & Hok & _)]; [assumption|].
    exfalso. eapply (H _ _ (or_introl eq_refl)).
    unfold Api.getSystemStats. now apply request_ok with (status := status). }
  split; [assumption|]. unfold DashboardPage.spinner. now rewrite E.
Qed.

Lemma failed_polls_keep_stats_witness :
  DashboardPage.stats
    (DashboardPage.run
       [DashboardPage.Mount; DashboardPage.Answer (Api.NetworkError "Failed to fetch");
        DashboardPage.Tick 0; DashboardPage.Answer (Api.Response 500 (Ok (VObj [])))]
       DashboardPage.initial)
    = DashboardPage.stats DashboardPage.initial /\
  DashboardPage.spinner
    (DashboardPage.run
       [DashboardPage.Mount; DashboardPage.Answer (Api.NetworkError "Failed to fetch");
        DashboardPage.Tick 0; DashboardPage.Answer (Api.Response 500 (Ok (VObj [])))]
       DashboardPage.initial)
    = DashboardPage.spinner DashboardPage.initial.
Proof.
  apply (failed_polls_keep_stats
           [DashboardPage.Mount; DashboardPage.Answer (Api.NetworkError "Failed to fetch");
            DashboardPage.Tick 0; DashboardPage.Answer (Api.Response 500 (Ok (VObj [])))]
           DashboardPage.initial).
  intros a d [H|[H|[H|[H|[]]]]]; try discriminate; injection H as <-; discriminate.
Defined.

(** ** Settings pages *)

Lemma lookup_field_last (k k' : string) (v : value) (fs : list (string * value)) :
  lookup_field k (fs ++ [(k', v)])%list
    = if String.eqb k k' then Some v else lookup_field k fs.
Proof.
  induction fs as [|[k0 v0] fs IH]; cbn; [reflexivity|].
  rewrite IH. now destruct (String.eqb k k').
Qed.

(** X26: saving never changes the page's state and raises exactly one
    alert, which is [Saved successfully] exactly when the configuration was
    fetched with a 2xx answer, could take the [im] property, and the post of
    the result was answered 2xx with a body that decodes; in every other
    case the alert starts with [Error saving: ]. *)
Theorem saveConfig_outcome (fetch : Api.network) (s : ConfigIMPage.State) :
  let s' := ConfigIMPage.saveConfig fetch s in
  ConfigIMPage.imConfig s' = ConfigIMPage.imConfig s /\
  ConfigIMPage.loading s' = ConfigIMPage.loading s /\
  exists msg,
    ConfigIMPage.alerts s' = (ConfigIMPage.alerts s ++ [msg])%list /\
    (msg = "Saved successfully" \/ exists why, msg = "Error saving: " ++ why) /\
    (msg = "Saved successfully" <->
     exists st1 config body st2 d,
       fetch "/api/config" {| Api.method := "GET"; Api.body := None |}
         = Api.Response st1 (Ok config) /\
       Api.ok st1 = true /\
       Assign.put config "im" (ConfigIMPage.imConfig s) = Ok body /\
       fetch "/api/config" {| Api.method := "POST"; Api.body := Some body |}
         = Api.Response st2 (Ok d) /\
       Api.ok st2 = true).
Proof.
  cbn. unfold ConfigIMPage.saveConfig, ConfigIMPage.saveConfig_body.
  destruct (Api.getConfig fetch) as [config|e] eqn:Hg; cbn.
  - destruct (Assign.put config "im" (ConfigIMPage.imConfig s)) as [body|e] eqn:Hp; cbn.
    + destruct (Api.saveConfig fetch body) as [d|e] eqn:Hs; cbn.
      * repeat split. eexists. split; [reflexivity|]. split; [now left|].
        split; [intros _ | reflexivity].
        apply request_ok_inv in Hg as (st1 & Hg & Hok1).
        apply request_ok_inv in Hs as (st2 & Hs & Hok2).
        exists st1, config, body, st2, d. now repeat split.
      * repeat split. eexists. split; [reflexivity|]. split; [right; eauto|].
        split; [discriminate|].
        intros (st1 & config' & body' & st2 & d & Hg' & Hok1 & Hp' & Hs' & Hok2).
        pose proof (request_ok fetch "/config" _ st1 config' Hg' Hok1) as Hg2.
        unfold Api.getConfig in Hg. rewrite Hg in Hg2. injection Hg2 as <-.
        rewrite Hp in Hp'. injection Hp' as <-.
        pose proof (request_ok fetch "/config" _ st2 d Hs' Hok2) as Hs2.
        unfold Api.saveConfig in Hs. rewrite Hs in Hs2. discriminate.
    + repeat split. eexists. split; [reflexivity|]. split; [right; eauto|].
      split; [discriminate|].
      intros (st1 & config' & body' & st2 & d & Hg' & Hok1 & Hp' & _).
      pose proof (request_ok fetch "/config" _ st1 config' Hg' Hok1) as Hg2.
      unfold Api.getConfig in Hg. rewrite Hg in Hg2. injection Hg2 as <-.
      rewrite Hp in Hp'. discriminate.
  - repeat split. eexists. split; [reflexivity|]. split; [right; eauto|].
    split; [discriminate|].
    intros (st1 & config' & body' & st2 & d & Hg' & Hok1 & _).
    pose proof (request_ok fetch "/config" _ st1 config' Hg' Hok1) as Hg2.
    unfold Api.getConfig in Hg. rewrite Hg in Hg2. discriminate.
Qed.

(** X27: loading and then saving against a server whose configuration is
    an object hands back that configuration: the value posted has, for
    every key but [im], the binding the server gave, and for [im] the
    server's value, or the empty list when that value was missing or falsy.
    With a truthy [im] nothing at all is changed. *)
Theorem load_then_save_keeps_config (fetch : Api.network) (s : ConfigIMPage.State)
    (fs : list (string * value)) :
  Api.getConfig fetch = Ok (VObj fs) ->
  exists fs',
    ConfigIMPage.saveConfig_body fetch (ConfigIMPage.loadConfig fetch s) = Ok (VObj fs') /\
    (forall k, lookup_field k fs'
               = if String.eqb k "im"
                 then Some (or_else (default VUndefined (lookup_field "im" fs)) (VArr []))
                 else lookup_field k fs) /\
    (truthy (default VUndefined (lookup_field "im" fs)) = true ->
     forall k, lookup_field k fs' = lookup_field k fs).
Proof.
  intros Hg. unfold ConfigIMPage.saveConfig_body, ConfigIMPage.loadConfig.
  rewrite Hg. cbn. eexists. split; [reflexivity|].
  split.
  - intros k. apply lookup_field_last.
  - intros Ht k. rewrite lookup_field_last. unfold or_else. rewrite Ht.
    destruct (String.eqb_spec k "im") as [->|]; [|reflexivity].
    destruct (lookup_field "im" fs); [reflexivity | discriminate].
Qed.

Lemma load_then_save_keeps_config_witness :
  exists fs',
    ConfigIMPage.saveConfig_body
      (answers 200 (VObj [("im", VArr [VObj [("type", VStr "qq")]]); ("llm", VNull)]))
      (ConfigIMPage.loadConfig
         (answers 200 (VObj [("im", VArr [VObj [("type", VStr "qq")]]); ("llm", VNull)]))
         ConfigIMPage.initial)
      = Ok (VObj fs') /\
    (forall k, lookup_field k fs'
               = if String.eqb k "im"
                 then Some (or_else
                              (default VUndefined
                                 (lookup_field "im"
                                    [("im", VArr [VObj [("type", VStr "qq")]]); ("llm", VNull)]))
                              (VArr []))
                 else lookup_field k [("im", VArr [VObj [("type", VStr "qq")]]); ("llm", VNull)]) /\
    (truthy (default VUndefined
               (lookup_field "im" [("im", VArr [VObj [("type", VStr "qq")]]); ("llm", VNull)]))
       = true ->
     forall k, lookup_field k fs'
               = lookup_field k [("im", VArr [VObj [("type", VStr "qq")]]); ("llm", VNull)]).
Proof.
  apply (load_then_save_keeps_config
           (answers 200 (VObj [("im", VArr [VObj [("type", VStr "qq")]]); ("llm", VNull)]))
           ConfigIMPage.initial
           [("im", VArr [VObj [("type", VStr "qq")]]); ("llm", VNull)]).
  reflexivity.
Defined.

(** X28: a load that fails leaves the page with its initial empty list and
    ends the loading; a save from that state posts the server's
    configuration of that moment with [im] replaced by the empty list,
    whatever the server held there. *)
Theorem save_after_failed_load_clears_im (fetch0 fetch1 : Api.network) (e : exn)
    (fs : list (string * value)) :
  Api.getConfig fetch0 = Throw e ->
  Api.getConfig fetch1 = Ok (VObj fs) ->
  ConfigIMPage.loadConfig fetch0 ConfigIMPage.initial
    = {| ConfigIMPage.imConfig := VArr []; ConfigIMPage.loading := false;
         ConfigIMPage.alerts := [] |} /\
  exists fs',
    ConfigIMPage.saveConfig_body fetch1
      (ConfigIMPage.loadConfig fetch0 ConfigIMPage.initial) = Ok (VObj fs') /\
    lookup_field "im" fs' = Some (VArr []) /\
    forall k, k <> "im" -> lookup_field k fs' = lookup_field k fs.
Proof.
  intros H0 H1. unfold ConfigIMPage.loadConfig. rewrite H0. cbn.
  split; [reflexivity|].
  unfold ConfigIMPage.saveConfig_body. rewrite H1. cbn.
  eexists. split; [reflexivity|]. split.
  - now rewrite lookup_field_last.
  - intros k Hk. rewrite lookup_field_last. apply String.eqb_neq in Hk. now rewrite Hk.
Qed.

Lemma save_after_failed_load_clears_im_witness :
  exists fs',
    ConfigIMPage.saveConfig_body
      (answers 200 (VObj [("im", VArr [VObj [("type", VStr "qq")]])]))
      (ConfigIMPage.loadConfig offline ConfigIMPage.initial) = Ok (VObj fs') /\
    lookup_field "im" fs' = Some (VArr []) /\
    forall k, k <> "im" ->
              lookup_field k fs' = lookup_field k [("im", VArr [VObj [("type", VStr "qq")]])].
Proof.
  apply (save_after_failed_load_clears_im offline
           (answers 200 (VObj [("im", VArr [VObj [("type", VStr "qq")]])]))
           (TypeError "Failed to fetch")
           [("im", VArr [VObj [("type", VStr "qq")]])]).
  - reflexivity.
  - reflexivity.
Defined.

(** X29: on the LLM page a load that fails (the request throws, or the
    body is [null]) ends the loading with [llmConfig] still [null]; the
    render that follows throws at its first read, [llmConfig.providers]. A
    load that got an object never leaves the page in that state. *)
Theorem failed_load_breaks_llm_page (fetch : Api.network) :
  (exists e, Api.getConfig fetch = Throw e) \/ Api.getConfig fetch = Ok VNull ->
  let s := ConfigLLMPage.loadConfig fetch ConfigLLMPage.initial in
  ConfigLLMPage.loading s = false /\
  ConfigLLMPage.llmConfig s = VNull /\
  ConfigLLMPage.render_providers s = Throw (TypeError (null_read "providers")) /\
  forall fetch' fs,
    Api.getConfig fetch' = Ok (VObj fs) ->
    exists p,
      ConfigLLMPage.render_providers (ConfigLLMPage.loadConfig fetch' ConfigLLMPage.initial)
        = Ok (Some p).
Proof.
  intros H. cbn. unfold ConfigLLMPage.loadConfig.
  assert ((data <- Api.getConfig fetch ;;
           llm <- get data "llm" ;;
           Ok (ConfigLLMPage.setLlmConfig (or_else llm (VObj [("providers", VObj [])]))
                 ConfigLLMPage.initial))
          = Throw (match Api.getConfig fetch with
                   | Throw e => e
                   | Ok _ => TypeError (null_read "llm")
                   end)) as ->.
  { destruct H as [[e ->] | ->]; reflexivity. }
  split; [reflexivity|]. split; [reflexivity|]. split; [reflexivity|].
  intros fetch' fs Hg. rewrite Hg. cbn. unfold ConfigLLMPage.render_providers. cbn.
  generalize (default VUndefined (lookup_field "llm" fs)). intros v.
  assert (exists q, get (or_else v (VObj [("providers", VObj [])])) "providers" = Ok q)
    as [q ->].
  { unfold or_else. destruct v as [| |[]|r|t|items|fields]; cbn; eauto;
      destruct (negb _); cbn; eauto. }
  cbn. eauto.
Qed.

Lemma failed_load_breaks_llm_page_witness :
  ConfigLLMPage.render_providers (ConfigLLMPage.loadConfig offline ConfigLLMPage.initial)
    = Throw (TypeError (null_read "providers")).
Proof.
  apply (failed_load_breaks_llm_page offline). left. eexists. reflexivity.
Defined.
